(** * The graph view's render-surface client (graphClient.ts)

    A shallow embedding of [GraphClient]: the socket handlers, the display
    state machine, the splitting of query results into vertices and edges and
    [displayGraph] with its node and edge caps.

    Conventions of the embedding.
    - An element of a result array is modelled by the four properties the
      client reads from it ([id], [type], [inV], [outV]); a property that is
      missing reads as [undefined], here [None].  Array elements that are
      themselves [null] or [undefined] are outside the model.
    - The page (the DOM) is a record of the properties the client writes.
      The children of the [svg] element are the [<g>] groups that
      [displayGraph] appends, each a list of drawn elements.
    - d3's force layouts live in a store indexed by allocation order;
      [_force] holds an index into it.  Node coordinates, which the layout
      computes in floating point, are not part of the model.
    - A d3 call inside [displayGraph]'s [try] block may throw; which one does
      is given by an oracle ([option Fault]) passed to the call.
    - Query ids are JavaScript numbers holding integers; they are modelled
      as [Z], and [+= 1] rounds to the nearest double ([js_increment]), so it
      is exact up to 2^53 and no longer beyond.  Ids past the largest finite
      double are outside the model.
    - [JSON.stringify] and the port are parameters of the development. *)

From stdpp Require Import base strings list gmap pretty.
From Stdlib Require Import ZArith Lia.
From Stdlib Require QArith.

Local Open Scope Z_scope.

(** ** Constants *)

Definition animationStepMs : Z := 50.
Definition graphWidth : Z := 1200.
Definition graphHeight : Z := 500.
Definition defaultQuery : string := "g.V()".
Definition maxNodes : nat := 300.
Definition maxEdges : nat := 1000.

(** ** JavaScript numbers holding integers *)

(** The largest n such that every integer up to n is a double. *)
Definition maxExactInteger : Z := 2 ^ 53.

(** The double nearest to the integer [x], ties to the even significand
    (53 bits). *)
Definition roundToDouble (x : Z) : Z :=
  let a := Z.abs x in
  if a <=? maxExactInteger then x
  else
    let ulp := 2 ^ (Z.log2 a - 52) in
    let q := a / ulp in
    let r := a mod ulp in
    let q' := if 2 * r <? ulp then q
              else if ulp <? 2 * r then q + 1
              else if Z.even q then q else q + 1 in
    Z.sgn x * (q' * ulp).

(** [n += 1] on a number holding the integer [n]. *)
Definition js_increment (n : Z) : Z := roundToDouble (n + 1).

(** ** Data model *)

Inductive State := Empty | Querying | Error | JsonResults | GraphResults.

Definition State_name (s : State) : string :=
  match s with
  | Empty => "empty"
  | Querying => "querying"
  | Error => "error"
  | JsonResults => "json-results"
  | GraphResults => "graph-results"
  end.

Inductive View := JsonView | GraphView.

Definition View_name (v : View) : string :=
  match v with JsonView => "json" | GraphView => "graph" end.

(** [interface ResultNode]; results may not be nodes, so every property is
    optional. *)
Record ResultNode := {
  id : option string;
  type : option string;
  inV : option string;   (* Edge source ID *)
  outV : option string   (* Edge target ID *)
}.

#[global] Instance ResultNode_eq_dec : EqDecision ResultNode.
Proof. solve_decision. Defined.

Record ForceNode := { vertex : ResultNode }.

Record ForceLink := {
  edge : ResultNode;
  source : ForceNode;
  target : ForceNode
}.

#[global] Instance ForceNode_eq_dec : EqDecision ForceNode.
Proof. solve_decision. Defined.

#[global] Instance ForceLink_eq_dec : EqDecision ForceLink.
Proof. solve_decision. Defined.

Module PageState.
Record t := {
  queryResults : list ResultNode;
  edgeResults : list ResultNode;
  isQueryRunning : bool;
  runningQueryId : Z;
  errorMessage : option string;
  query : string;
  view : View
}.
End PageState.

(** Messages the client emits to the host, with the event name and the
    arguments as [emitToHost] joins them for its console line. *)
Inductive HostMsg :=
| MsgQuery (queryId : Z) (gremlin : string)
| MsgSetQuery (q : string)
| MsgSetView (v : View)
| MsgGetPageState
| MsgGetTitle
| MsgLog (s : string).

Definition HostMsg_name (m : HostMsg) : string :=
  match m with
  | MsgQuery _ _ => "query"
  | MsgSetQuery _ => "setQuery"
  | MsgSetView _ => "setView"
  | MsgGetPageState => "getPageState"
  | MsgGetTitle => "getTitle"
  | MsgLog _ => "log"
  end.

Definition HostMsg_args (m : HostMsg) : list string :=
  match m with
  | MsgQuery q g => [pretty q; g]
  | MsgSetQuery q => [q]
  | MsgSetView v => [View_name v]
  | MsgGetPageState | MsgGetTitle => []
  | MsgLog s => [s]
  end.

(** [Array.prototype.join] *)
Definition join (sep : string) (l : list string) : string :=
  String.concat sep l.

(** ** The page *)

Inductive SvgElem :=
| Line (d : ForceLink)
| Text (d : ForceNode)
| Circle (d : ForceNode).

Definition SvgElem_class (e : SvgElem) : string :=
  match e with
  | Line _ => "edge"
  | Text _ => "label"
  | Circle _ => "vertex"
  end.

Record Dom := {
  states_class : string;
  graphRadio_checked : bool;
  jsonRadio_checked : bool;
  graphSection_active : bool;
  jsonSection_active : bool;
  graphSection_svg : list (list SvgElem);
  jsonResults_value : string;
  queryError_value : string;
  queryInput_value : string;
  stats_text : string;
  title_text : string
}.

(** ** d3 force layouts *)

Record ForceParams := {
  gravity : QArith_base.Q;
  friction : QArith_base.Q;
  linkDistance : QArith_base.Q;
  linkStrength : QArith_base.Q;
  charge : QArith_base.Q
}.

Record Simulation := {
  sim_nodes : list ForceNode;
  sim_links : list ForceLink;
  sim_params : option ForceParams;
  sim_drag : bool;      (* force.drag() behaviour created *)
  sim_onTick : bool;    (* a "tick" listener is registered *)
  sim_running : bool    (* started and not stopped since *)
}.

(** ** The client object and the world it runs in *)

Record Client := {
  _force : option nat;
  _currentQueryId : Z;
  _graphView : bool
}.

Record World := {
  this : Client;
  dom : Dom;
  forces : list Simulation;
  emitted : list HostMsg;     (* socket.emit, oldest first *)
  console : list string       (* console.log, oldest first *)
}.

Definition with_this (f : Client → Client) (w : World) : World :=
  {| this := f (this w); dom := dom w; forces := forces w;
     emitted := emitted w; console := console w |}.

Definition with_dom (f : Dom → Dom) (w : World) : World :=
  {| this := this w; dom := f (dom w); forces := forces w;
     emitted := emitted w; console := console w |}.

Definition with_forces (f : list Simulation → list Simulation) (w : World) : World :=
  {| this := this w; dom := dom w; forces := f (forces w);
     emitted := emitted w; console := console w |}.

Definition with_emitted (f : list HostMsg → list HostMsg) (w : World) : World :=
  {| this := this w; dom := dom w; forces := forces w;
     emitted := f (emitted w); console := console w |}.

Definition with_console (f : list string → list string) (w : World) : World :=
  {| this := this w; dom := dom w; forces := forces w;
     emitted := emitted w; console := f (console w) |}.

Definition set_force (v : option nat) (c : Client) : Client :=
  {| _force := v; _currentQueryId := _currentQueryId c; _graphView := _graphView c |}.

Definition set_currentQueryId (v : Z) (c : Client) : Client :=
  {| _force := _force c; _currentQueryId := v; _graphView := _graphView c |}.

Definition set_graphView (v : bool) (c : Client) : Client :=
  {| _force := _force c; _currentQueryId := _currentQueryId c; _graphView := v |}.

Definition set_states_class (v : string) (d : Dom) : Dom :=
  {| states_class := v;
     graphRadio_checked := graphRadio_checked d;
     jsonRadio_checked := jsonRadio_checked d;
     graphSection_active := graphSection_active d;
     jsonSection_active := jsonSection_active d;
     graphSection_svg := graphSection_svg d;
     jsonResults_value := jsonResults_value d;
     queryError_value := queryError_value d;
     queryInput_value := queryInput_value d;
     stats_text := stats_text d;
     title_text := title_text d |}.

Definition set_view_controls (graph : bool) (d : Dom) : Dom :=
  {| states_class := states_class d;
     graphRadio_checked := graph;
     jsonRadio_checked := negb graph;
     graphSection_active := graph;
     jsonSection_active := negb graph;
     graphSection_svg := graphSection_svg d;
     jsonResults_value := jsonResults_value d;
     queryError_value := queryError_value d;
     queryInput_value := queryInput_value d;
     stats_text := stats_text d;
     title_text := title_text d |}.

Definition set_svg (v : list (list SvgElem)) (d : Dom) : Dom :=
  {| states_class := states_class d;
     graphRadio_checked := graphRadio_checked d;
     jsonRadio_checked := jsonRadio_checked d;
     graphSection_active := graphSection_active d;
     jsonSection_active := jsonSection_active d;
     graphSection_svg := v;
     jsonResults_value := jsonResults_value d;
     queryError_value := queryError_value d;
     queryInput_value := queryInput_value d;
     stats_text := stats_text d;
     title_text := title_text d |}.

Definition set_jsonResults_value (v : string) (d : Dom) : Dom :=
  {| states_class := states_class d;
     graphRadio_checked := graphRadio_checked d;
     jsonRadio_checked := jsonRadio_checked d;
     graphSection_active := graphSection_active d;
     jsonSection_active := jsonSection_active d;
     graphSection_svg := graphSection_svg d;
     jsonResults_value := v;
     queryError_value := queryError_value d;
     queryInput_value := queryInput_value d;
     stats_text := stats_text d;
     title_text := title_text d |}.

Definition set_queryError_value (v : string) (d : Dom) : Dom :=
  {| states_class := states_class d;
     graphRadio_checked := graphRadio_checked d;
     jsonRadio_checked := jsonRadio_checked d;
     graphSection_active := graphSection_active d;
     jsonSection_active := jsonSection_active d;
     graphSection_svg := graphSection_svg d;
     jsonResults_value := jsonResults_value d;
     queryError_value := v;
     queryInput_value := queryInput_value d;
     stats_text := stats_text d;
     title_text := title_text d |}.

Definition set_queryInput_value (v : string) (d : Dom) : Dom :=
  {| states_class := states_class d;
     graphRadio_checked := graphRadio_checked d;
     jsonRadio_checked := jsonRadio_checked d;
     graphSection_active := graphSection_active d;
     jsonSection_active := jsonSection_active d;
     graphSection_svg := graphSection_svg d;
     jsonResults_value := jsonResults_value d;
     queryError_value := queryError_value d;
     queryInput_value := v;
     stats_text := stats_text d;
     title_text := title_text d |}.

Definition set_stats_text (v : string) (d : Dom) : Dom :=
  {| states_class := states_class d;
     graphRadio_checked := graphRadio_checked d;
     jsonRadio_checked := jsonRadio_checked d;
     graphSection_active := graphSection_active d;
     jsonSection_active := jsonSection_active d;
     graphSection_svg := graphSection_svg d;
     jsonResults_value := jsonResults_value d;
     queryError_value := queryError_value d;
     queryInput_value := queryInput_value d;
     stats_text := v;
     title_text := title_text d |}.

Definition set_title_text (v : string) (d : Dom) : Dom :=
  {| states_class := states_class d;
     graphRadio_checked := graphRadio_checked d;
     jsonRadio_checked := jsonRadio_checked d;
     graphSection_active := graphSection_active d;
     jsonSection_active := jsonSection_active d;
     graphSection_svg := graphSection_svg d;
     jsonResults_value := jsonResults_value d;
     queryError_value := queryError_value d;
     queryInput_value := queryInput_value d;
     stats_text := stats_text d;
     title_text := v |}.

(** ** Computations: state passing with exceptions

    A JavaScript statement changes the world and either completes normally
    or throws; what it changed before throwing stays changed. *)

Inductive Completion (A : Type) :=
| Normal (a : A)
| Throw (err : string).
Arguments Normal {A} a.
Arguments Throw {A} err.

Definition Js (A : Type) : Type := World → World * Completion A.

#[global] Instance Js_ret : MRet Js := λ A a w, (w, Normal a).

#[global] Instance Js_bind : MBind Js := λ A B k m w,
  match m w with
  | (w', Normal a) => k a w'
  | (w', Throw e) => (w', Throw e)
  end.

Definition modify (f : World → World) : Js unit := λ w, (f w, Normal ()).

Definition gets {A} (f : World → A) : Js A := λ w, (w, Normal (f w)).

(** [try { body } catch (err) { handler(err) }] *)
Definition try_catch (body : Js unit) (handler : string → Js unit) : Js unit :=
  λ w, match body w with
       | (w', Normal a) => (w', Normal a)
       | (w', Throw e) => handler e w'
       end.

Definition exec {A} (m : Js A) (w : World) : World := fst (m w).
Definition outcome {A} (m : Js A) (w : World) : Completion A := snd (m w).

(** The d3 calls of [displayGraph], in program order. *)
Inductive RenderStep :=
| ClearGraph | SetStats | ForceStop | ForceCreate | ForceConfig | SvgSetup
| AppendEdges | DragSetup | AppendLabels | AppendVertices | OnTick | ForceStart.

(** Position of a step in the program order of [displayGraph]. *)
Definition RenderStep_index (s : RenderStep) : nat :=
  match s with
  | ClearGraph => 0 | SetStats => 1 | ForceStop => 2 | ForceCreate => 3
  | ForceConfig => 4 | SvgSetup => 5 | AppendEdges => 6 | DragSetup => 7
  | AppendLabels => 8 | AppendVertices => 9 | OnTick => 10 | ForceStart => 11
  end%nat.

Definition RenderStep_eqb (a b : RenderStep) : bool :=
  Nat.eqb (RenderStep_index a) (RenderStep_index b).

(** The d3 call that throws, and the text of what it throws. *)
Record Fault := { at_step : RenderStep; err_text : string }.

Definition throws (fault : option Fault) (s : RenderStep) : option string :=
  match fault with
  | Some f => if RenderStep_eqb (at_step f) s then Some (err_text f) else None
  | None => None
  end.

(** A d3 call: it has its effect, or it throws and has none. *)
Definition d3 (fault : option Fault) (s : RenderStep) (effect : World → World) : Js unit :=
  λ w, match throws fault s with
       | Some e => (w, Throw e)
       | None => (effect w, Normal ())
       end.

(** ** What is on screen, and which layouts run *)

Definition svgElems (w : World) : list SvgElem :=
  concat (graphSection_svg (dom w)).

(** The elements [clearGraph] selects. *)
Definition graphElems (w : World) : list SvgElem :=
  filter (λ e, SvgElem_class e ∈ ["vertex"; "edge"; "label"]) (svgElems w).

Definition renderedNodes (w : World) : list ForceNode :=
  omap (λ e, match e with Circle d => Some d | _ => None end) (svgElems w).

Definition renderedLinks (w : World) : list ForceLink :=
  omap (λ e, match e with Line d => Some d | _ => None end) (svgElems w).

Definition renderedLabels (w : World) : list ForceNode :=
  omap (λ e, match e with Text d => Some d | _ => None end) (svgElems w).

(** Indices of the force layouts that are running. *)
Definition activeForces (w : World) : list nat :=
  filter (λ i, sim_running <$> forces w !! i = Some true) (seq 0 (length (forces w))).

(** The force layout [this._force] refers to. *)
Definition currentForce (w : World) : option Simulation :=
  i ← _force (this w); forces w !! i.

(** [k] is the id of a vertex that survived the node cap. *)
Definition survives (vertices : list ResultNode) (k : option string) : Prop :=
  k ∈ id <$> take maxNodes vertices.

(** Both endpoints of [e] survived the node cap. *)
Definition resolvable (vertices : list ResultNode) (e : ResultNode) : Prop :=
  survives vertices (inV e) ∧ survives vertices (outV e).

#[global] Instance survives_dec vertices k : Decision (survives vertices k).
Proof. unfold survives. apply _. Defined.

#[global] Instance resolvable_dec vertices e : Decision (resolvable vertices e).
Proof. unfold resolvable. apply _. Defined.

(** Records whose [type] makes them part of the graph. *)
Definition graphTyped (n : ResultNode) : Prop :=
  type n = Some "vertex" ∨ type n = Some "edge".

#[global] Instance graphTyped_dec n : Decision (graphTyped n).
Proof. unfold graphTyped. apply _. Defined.

(** ** Sample data for the closed examples *)

Definition samplePage : Dom :=
  {| states_class := "";
     graphRadio_checked := true;
     jsonRadio_checked := false;
     graphSection_active := true;
     jsonSection_active := false;
     graphSection_svg := [];
     jsonResults_value := "";
     queryError_value := "";
     queryInput_value := "";
     stats_text := "";
     title_text := "" |}.

Definition sampleVertex (i : string) : ResultNode :=
  {| id := Some i; type := Some "vertex"; inV := None; outV := None |}.

Definition sampleEdge (i a b : string) : ResultNode :=
  {| id := Some i; type := Some "edge"; inV := Some a; outV := Some b |}.

(** A record that is neither a vertex nor an edge, e.g. a projection. *)
Definition sampleOther (i : string) : ResultNode :=
  {| id := Some i; type := None; inV := None; outV := None |}.

(** A stand-in for [JSON.stringify] that lists the ids of the records. *)
Definition sampleStringify (l : list ResultNode) : string :=
  "[" +:+ join "," ((λ n, default "null" (id n)) <$> l) +:+ "]".

(** ** GraphClient *)

Section GraphClient.

Variable port : nat.
Variable JSON_stringify : list ResultNode → string.

Set Default Proof Using "Type".

Definition logToUI (s : string) : Js unit :=
  modify (with_console (λ c, c ++ [s])).

Definition emitToHost (m : HostMsg) : Js unit :=
  logToUI ("Message to host: " +:+ HostMsg_name m +:+ " " +:+ join ", " (HostMsg_args m)) ;;
  modify (with_emitted (λ l, l ++ [m])).

(** [this._socket] is set once the constructor has run, which is where every
    handler below runs. *)
Definition log (s : string) : Js unit :=
  emitToHost (MsgLog s) ;;
  logToUI s.

Definition _setState (state : State) : Js unit :=
  let fullState := "state-" +:+ State_name state in
  let fullState :=
    match state with
    | GraphResults | JsonResults => fullState +:+ " state-results"
    | _ => fullState
    end in
  modify (with_dom (set_states_class fullState)).

(** [selectAll(".vertex, .edge, .label").remove()] *)
Definition removeGraphElems (svg : list (list SvgElem)) : list (list SvgElem) :=
  (λ g, filter (λ e, SvgElem_class e ∉ ["vertex"; "edge"; "label"]) g) <$> svg.

Definition clearGraph (fault : option Fault) : Js unit :=
  d3 fault ClearGraph (with_dom (λ d, set_svg (removeGraphElems (graphSection_svg d)) d)).

Definition setStateEmpty : Js unit :=
  _setState Empty.

Definition setStateQuerying : Js unit :=
  _setState Querying ;;
  clearGraph None.

Definition setStateResults (hasGraph : bool) : Js unit :=
  _setState (if hasGraph then GraphResults else JsonResults).

(** The error is a string on both call paths, so
    [error.message || error.toString()] is the string itself. *)
Definition setStateError (error : string) : Js unit :=
  let message := error in
  modify (with_dom (set_queryError_value message)) ;;
  _setState Error ;;
  clearGraph None.

Definition splitVerticesAndEdges (nodes : list ResultNode)
  : list ResultNode * list ResultNode :=
  let vertices := filter (λ n, type n = Some "vertex") nodes in
  let edges := filter (λ n, type n = Some "edge") nodes in
  (vertices, edges).

(** [vertices.slice(0, maxNodes).map(v => <ForceNode>{ vertex: v })] *)
Definition makeNodes (vertices : list ResultNode) : list ForceNode :=
  (λ v, {| vertex := v |}) <$> take maxNodes vertices.

(** [nodes.forEach(n => nodesById.set(n.vertex.id, n))] *)
Definition indexNodes (nodes : list ForceNode) : gmap (option string) ForceNode :=
  foldl (λ m n, <[id (vertex n) := n]> m) ∅ nodes.

(** The [edges.forEach] loop pushing onto [links]. *)
Definition makeLinks (nodesById : gmap (option string) ForceNode)
    (edges : list ResultNode) : list ForceLink :=
  foldl (λ links e,
           match nodesById !! inV e, nodesById !! outV e with
           | Some source, Some target =>
               links ++ [{| edge := e; source := source; target := target |}]
           | _, _ => links
           end) [] edges.

Definition graphNodes (vertices : list ResultNode) : list ForceNode :=
  makeNodes vertices.

Definition graphLinks (vertices edges : list ResultNode) : list ForceLink :=
  take maxEdges (makeLinks (indexNodes (makeNodes vertices)) edges).

Definition statsText (vertices edges : list ResultNode)
    (nodes : list ForceNode) (links : list ForceLink) : string :=
  if decide (length nodes = length vertices ∧ length links = length edges)
  then "Displaying all " +:+ pretty (length nodes) +:+ " vertices and "
       +:+ pretty (length links) +:+ " edges"
  else "Displaying " +:+ pretty (length nodes) +:+ " of " +:+ pretty (length vertices)
       +:+ " vertices and " +:+ pretty (length links) +:+ " of "
       +:+ pretty (length edges) +:+ " edges".

Definition forceParams : ForceParams :=
  {| gravity := QArith_base.Qmake 1 1;
     friction := QArith_base.Qmake 1 2;
     linkDistance := QArith_base.Qmake (graphWidth / 3) 1;
     linkStrength := QArith_base.Qmake 1 100;
     charge := QArith_base.Qmake (-3000) 1 |}.

Definition newSimulation (nodes : list ForceNode) (links : list ForceLink) : Simulation :=
  {| sim_nodes := nodes; sim_links := links; sim_params := None;
     sim_drag := false; sim_onTick := false; sim_running := false |}.

Definition sim_configure (s : Simulation) : Simulation :=
  {| sim_nodes := sim_nodes s; sim_links := sim_links s; sim_params := Some forceParams;
     sim_drag := sim_drag s; sim_onTick := sim_onTick s; sim_running := sim_running s |}.

Definition sim_makeDrag (s : Simulation) : Simulation :=
  {| sim_nodes := sim_nodes s; sim_links := sim_links s; sim_params := sim_params s;
     sim_drag := true; sim_onTick := sim_onTick s; sim_running := sim_running s |}.

Definition sim_listenTick (s : Simulation) : Simulation :=
  {| sim_nodes := sim_nodes s; sim_links := sim_links s; sim_params := sim_params s;
     sim_drag := sim_drag s; sim_onTick := true; sim_running := sim_running s |}.

Definition sim_setRunning (b : bool) (s : Simulation) : Simulation :=
  {| sim_nodes := sim_nodes s; sim_links := sim_links s; sim_params := sim_params s;
     sim_drag := sim_drag s; sim_onTick := sim_onTick s; sim_running := b |}.

(** Append drawn elements to the group [g] of the svg. *)
Definition appendTo (g : nat) (elems : list SvgElem) (w : World) : World :=
  with_dom (λ d, set_svg (alter (λ grp, grp ++ elems) g (graphSection_svg d)) d) w.

Definition displayGraph (fault : option Fault) (vertices edges : list ResultNode) : Js unit :=
  try_catch
    (clearGraph fault ;;
     (* Set up nodes and links for the force simulation *)
     let nodes := makeNodes vertices in
     let nodesById := indexNodes nodes in
     let links := makeLinks nodesById edges in
     (* Limit number of edges *)
     let links := take maxEdges links in
     d3 fault SetStats (with_dom (set_stats_text (statsText vertices edges nodes links))) ;;
     (* Set up force simulation *)
     old ← gets (λ w, _force (this w)) ;
     match old with
     | Some i => d3 fault ForceStop (with_forces (alter (sim_setRunning false) i))
     | None => mret ()
     end ;;
     force ← gets (λ w, length (forces w)) ;
     d3 fault ForceCreate (λ w,
       with_this (set_force (Some force))
         (with_forces (λ fs, fs ++ [newSimulation nodes links]) w)) ;;
     d3 fault ForceConfig (with_forces (alter sim_configure force)) ;;
     svg ← gets (λ w, length (graphSection_svg (dom w))) ;
     d3 fault SvgSetup (with_dom (λ d, set_svg (graphSection_svg d ++ [[]]) d)) ;;
     (* Links before nodes so that links don't get drawn on top of node labels *)
     d3 fault AppendEdges (appendTo svg (Line <$> links)) ;;
     d3 fault DragSetup (with_forces (alter sim_makeDrag force)) ;;
     d3 fault AppendLabels (appendTo svg (Text <$> nodes)) ;;
     (* Nodes last so that they're always on top to be able to be dragged *)
     d3 fault AppendVertices (appendTo svg (Circle <$> nodes)) ;;
     d3 fault OnTick (with_forces (alter sim_listenTick force)) ;;
     d3 fault ForceStart (with_forces (alter (sim_setRunning true) force)))
    (λ err, log err).

Definition showResults (fault : option Fault)
    (queryResults edgeResults : list ResultNode) : Js unit :=
  (* Always show results JSON (but not edgeResults) *)
  modify (with_dom (set_jsonResults_value (JSON_stringify queryResults))) ;;
  modify (with_console (λ c, c ++ [JSON_stringify queryResults])) ;;
  let '(vertices, edges) := splitVerticesAndEdges queryResults in
  if decide (length vertices = 0%nat) then
    (* No vertices to show, just show query JSON *)
    setStateResults false
  else
    (* Fold in additionally-queried edges *)
    let edges := edges ++ edgeResults in
    setStateResults true ;;
    displayGraph fault vertices edges.

Definition setView : Js unit :=
  graphView ← gets (λ w, _graphView (this w)) ;
  modify (with_dom (set_view_controls graphView)) ;;
  emitToHost (MsgSetView (if graphView : bool then GraphView else JsonView)).

Definition selectGraphView : Js unit :=
  modify (with_this (set_graphView true)) ;;
  setView.

Definition selectJsonView : Js unit :=
  modify (with_this (set_graphView false)) ;;
  setView.

Definition getPageState : Js unit :=
  emitToHost MsgGetPageState.

Definition setQuery (query : string) : Js unit :=
  emitToHost (MsgSetQuery query).

Definition query (gremlin : string) : Js unit :=
  modify (with_this (λ c, set_currentQueryId (js_increment (_currentQueryId c)) c)) ;;
  queryId ← gets (λ w, _currentQueryId (this w)) ;
  emitToHost (MsgQuery queryId gremlin) ;;
  setStateQuerying.

(** *** Socket handlers registered by the constructor *)

Definition onConnect : Js unit :=
  log ("Client connected on port " +:+ pretty port) ;;
  modify (with_emitted (λ l, l ++ [MsgGetTitle])).

Definition onDisconnect : Js unit :=
  log "disconnect".

Definition onSetPageState (fault : option Fault) (pageState : PageState.t) : Js unit :=
  modify (with_dom (set_queryInput_value (PageState.query pageState))) ;;
  if PageState.isQueryRunning pageState then
    modify (with_this (set_currentQueryId (PageState.runningQueryId pageState))) ;;
    setStateQuerying
  else
    match PageState.errorMessage pageState with
    | None | Some "" =>
        showResults fault (PageState.queryResults pageState) (PageState.edgeResults pageState)
    | Some errorMessage => setStateError errorMessage
    end ;;
    match PageState.view pageState with
    | JsonView => selectJsonView
    | GraphView => selectGraphView
    end.

Definition onSetTitle (title : string) : Js unit :=
  log ("Received title: " +:+ title) ;;
  modify (with_dom (set_title_text title)).

Definition onShowResults (fault : option Fault) (queryId : Z)
    (queryResults edgeResults : list ResultNode) : Js unit :=
  log ("Received results for query " +:+ pretty queryId +:+ " - "
       +:+ pretty (length queryResults) +:+ " data points, plus "
       +:+ pretty (length edgeResults) +:+ " edges") ;;
  currentQueryId ← gets (λ w, _currentQueryId (this w)) ;
  if decide (queryId ≠ currentQueryId) then
    log "  Ignoring results, out of date"
  else
    showResults fault queryResults edgeResults.

Definition onShowQueryError (queryId : Z) (error : string) : Js unit :=
  log ("Received error for query " +:+ pretty queryId +:+ " - " +:+ error) ;;
  currentQueryId ← gets (λ w, _currentQueryId (this w)) ;
  if decide (queryId ≠ currentQueryId) then
    log "  Ignoring error, out of date"
  else
    setStateError error.

(** The world a page [page] is in when [new GraphClient(port)] returns: no
    force layout exists yet, and the first [log] ran before the socket was
    assigned, so it reached the console only. *)
Definition constructor (page : Dom) : World :=
  exec (modify (with_dom (set_queryInput_value defaultQuery)) ;;
        setStateEmpty ;;
        logToUI ("Connecting on port " +:+ pretty port))
       {| this := {| _force := None; _currentQueryId := 0; _graphView := false |};
          dom := page; forces := []; emitted := []; console := [] |}.

(** *** Runs of the client *)

Inductive Event :=
| Connect
| Disconnect
| SetPageState (fault : option Fault) (pageState : PageState.t)
| SetTitle (title : string)
| ShowResults (fault : option Fault) (queryId : Z) (queryResults edgeResults : list ResultNode)
| ShowQueryError (queryId : Z) (error : string)
| CallGetPageState
| CallQuery (gremlin : string)
| CallSelectGraphView
| CallSelectJsonView
| CallSetQuery (query : string).

Definition handler (ev : Event) : Js unit :=
  match ev with
  | Connect => onConnect
  | Disconnect => onDisconnect
  | SetPageState fault pageState => onSetPageState fault pageState
  | SetTitle title => onSetTitle title
  | ShowResults fault queryId queryResults edgeResults =>
      onShowResults fault queryId queryResults edgeResults
  | ShowQueryError queryId error => onShowQueryError queryId error
  | CallGetPageState => getPageState
  | CallQuery gremlin => query gremlin
  | CallSelectGraphView => selectGraphView
  | CallSelectJsonView => selectJsonView
  | CallSetQuery q => setQuery q
  end.

(** One turn of the event loop; an exception nobody caught reaches
    [window.onerror]. *)
Definition dispatch (w : World) (ev : Event) : World :=
  match handler ev w with
  | (w', Normal _) => w'
  | (w', Throw message) => exec (logToUI ("ERROR: " +:+ message)) w'
  end.

Definition run (evs : list Event) (w : World) : World :=
  foldl dispatch w evs.


(** ** The outcome of a complete [displayGraph] *)

(** What a complete [displayGraph] puts into its new group, in drawing order. *)
Definition drawn (vertices edges : list ResultNode) : list SvgElem :=
  (Line <$> graphLinks vertices edges) ++ (Text <$> graphNodes vertices)
  ++ (Circle <$> graphNodes vertices).

Definition startedSimulation (vertices edges : list ResultNode) : Simulation :=
  {| sim_nodes := graphNodes vertices; sim_links := graphLinks vertices edges;
     sim_params := Some forceParams;
     sim_drag := true; sim_onTick := true; sim_running := true |}.

(** The layouts after [if (this._force) { this._force.stop(); }]. *)
Definition stopCurrent (w : World) : list Simulation :=
  match _force (this w) with
  | Some i => alter (sim_setRunning false) i (forces w)
  | None => forces w
  end.

(** What [displayGraph] catches: the text thrown by the faulty d3 call, if
    that call is reached ([stop] is only called on an existing layout). *)
Definition caught (fault : option Fault) (w : World) : option string :=
  match fault with
  | Some f =>
      match at_step f, _force (this w) with
      | ForceStop, None => None
      | _, _ => Some (err_text f)
      end
  | None => None
  end.


(** Nothing was cut: every vertex is within the node cap, every edge joins
    two of them and is within the edge cap. *)
Definition noTruncation (vertices edges : list ResultNode) : Prop :=
  (length vertices ≤ maxNodes)%nat ∧ (length edges ≤ maxEdges)%nat ∧
  Forall (resolvable vertices) edges.

(** [w'] shows [queryResults] as JSON only, and no graph was built on the way
    from [w]. *)
Definition json_only (queryResults : list ResultNode) (w w' : World) : Prop :=
  states_class (dom w') = "state-json-results state-results" ∧
  jsonResults_value (dom w') = JSON_stringify queryResults ∧
  graphSection_svg (dom w') = graphSection_svg (dom w) ∧
  stats_text (dom w') = stats_text (dom w) ∧
  forces w' = forces w ∧
  _force (this w') = _force (this w).

(** Everything of a rendered graph is gone: no drawn element, no running
    layout, and no layout (with its node and link wrappers) held by the
    client. *)
Definition graph_torn_down (w : World) : Prop :=
  graphElems w = [] ∧ activeForces w = [] ∧ currentForce w = None.


(** Only the layout [cur] may be running; with [cur = None], none is. *)
Definition at_most_current (fs : list Simulation) (cur : option nat) : Prop :=
  ∀ i s, fs !! i = Some s → sim_running s = true → cur = Some i.

Definition one_force_invariant (w : World) : Prop :=
  at_most_current (forces w) (_force (this w)).

(** In the querying and error states nothing of a graph is on screen. *)
Definition cleared_invariant (w : World) : Prop :=
  states_class (dom w) ∈ ["state-querying"; "state-error"] → graphElems w = [].

(** [m] keeps the invariant [I], whether it completes or throws. *)
Definition keeps {A} (I : World → Prop) (m : Js A) : Prop :=
  ∀ w, I w → I (fst (m w)).

(** ** Further observations on runs *)

(** The ids of the [query] messages sent to the host, oldest first. *)
Definition queryIds (msgs : list HostMsg) : list Z :=
  omap (λ m, match m with MsgQuery q _ => Some q | _ => None end) msgs.

(** A reply whose id is not [cur]. *)
Definition staleReply (cur : Z) (ev : Event) : Prop :=
  match ev with
  | ShowResults _ queryId _ _ => queryId ≠ cur
  | ShowQueryError queryId _ => queryId ≠ cur
  | _ => False
  end.

(** A page state that makes the client adopt the host's running query id. *)
Definition adoptsQueryId (ev : Event) : bool :=
  match ev with
  | SetPageState _ pageState => PageState.isQueryRunning pageState
  | _ => false
  end.

(** The radio buttons and the two sections agree with [_graphView]. *)
Definition viewSynced (w : World) : Prop :=
  graphRadio_checked (dom w) = _graphView (this w) ∧
  jsonRadio_checked (dom w) = negb (_graphView (this w)) ∧
  graphSection_active (dom w) = _graphView (this w) ∧
  jsonSection_active (dom w) = negb (_graphView (this w)).

(** The values [_setState] can give the class of the states element. *)
Definition stateClasses : list string :=
  ["state-empty"; "state-querying"; "state-error";
   "state-json-results state-results"; "state-graph-results state-results"].

(** The last of the nodes that carry the id [k]. *)
Definition lastWithId (k : option string) (nodes : list ForceNode) : option ForceNode :=
  last (filter (λ n, id (vertex n) = k) nodes).

(** [I] survives every primitive step the handlers are made of, apart from
    the adoption of a query id sent by the host. *)
Record Stable (I : World → Prop) : Prop := {
  st_console : ∀ s w, I w → I (with_console (λ c, c ++ [s]) w);
  st_emit : ∀ m w, queryIds [m] = [] → I w → I (with_emitted (λ l, l ++ [m]) w);
  st_input : ∀ s w, I w → I (with_dom (set_queryInput_value s) w);
  st_title : ∀ s w, I w → I (with_dom (set_title_text s) w);
  st_json : ∀ s w, I w → I (with_dom (set_jsonResults_value s) w);
  st_error : ∀ s w, I w → I (with_dom (set_queryError_value s) w);
  st_class : ∀ c w, c ∈ stateClasses → I w → I (with_dom (set_states_class c) w);
  st_clear : ∀ w, I w →
    I (with_dom (λ d, set_svg (removeGraphElems (graphSection_svg d)) d) w);
  st_display : ∀ fault vertices edges, keeps I (displayGraph fault vertices edges);
  st_view : ∀ b w, I w → I (with_dom (set_view_controls b) (with_this (set_graphView b) w));
  st_query : ∀ gremlin, keeps I (query gremlin)
}.

Arguments makeNodes : simpl never.
Arguments makeLinks : simpl never.
Arguments indexNodes : simpl never.
Arguments graphNodes : simpl never.
Arguments graphLinks : simpl never.
Arguments statsText : simpl never.
Arguments maxNodes : simpl never.
Arguments maxEdges : simpl never.
Arguments removeGraphElems : simpl never.
Arguments newSimulation : simpl never.
Arguments pretty : simpl never.
Arguments js_increment : simpl never.

Ltac js_unfold :=
  unfold displayGraph, showResults, try_catch, clearGraph, log, emitToHost, logToUI,
    setView, selectGraphView, selectJsonView, getPageState, setQuery, query,
    setStateResults, setStateQuerying, setStateError, setStateEmpty, _setState,
    d3, throws, gets, modify, exec, outcome, mbind, Js_bind, mret, Js_ret, appendTo.

(** [tauto] with the parameters of the development out of its sight. *)
Ltac prop_solve := try clear port; try clear JSON_stringify; tauto.

(** Case analysis on the oracle of [displayGraph] and on [this._force]. *)
Ltac fault_cases fault w :=
  destruct fault as [[[] ?]|]; js_unfold; cbn;
  destruct (_force (this w)); cbn.

(** ** Lemmas on the pure part of [displayGraph] *)

Definition linkOf (nodesById : gmap (option string) ForceNode) (e : ResultNode)
  : option ForceLink :=
  match nodesById !! inV e, nodesById !! outV e with
  | Some source, Some target => Some {| edge := e; source := source; target := target |}
  | _, _ => None
  end.

Lemma makeLinks_omap nodesById edges :
  makeLinks nodesById edges = omap (linkOf nodesById) edges.
Proof.
  unfold makeLinks.
  enough (H : ∀ acc, foldl (λ links e,
             match nodesById !! inV e, nodesById !! outV e with
             | Some source, Some target =>
                 links ++ [{| edge := e; source := source; target := target |}]
             | _, _ => links
             end) acc edges = acc ++ omap (linkOf nodesById) edges) by apply (H []).
  induction edges as [|e edges IH]; intros acc; simpl.
  - by rewrite app_nil_r.
  - rewrite IH. unfold linkOf.
    destruct (nodesById !! inV e), (nodesById !! outV e); simpl; try done.
    by rewrite <- app_assoc.
Qed.

Lemma indexNodes_lookup_gen (nodes : list ForceNode) (m : gmap (option string) ForceNode) k :
  is_Some (foldl (λ m n, <[id (vertex n) := n]> m) m nodes !! k)
  ↔ is_Some (m !! k) ∨ k ∈ (λ n, id (vertex n)) <$> nodes.
Proof.
  revert m. induction nodes as [|n nodes IH]; intros m; simpl.
  - rewrite elem_of_nil. prop_solve.
  - rewrite IH, elem_of_cons, lookup_insert_is_Some.
    destruct (decide (id (vertex n) = k)) as [Heq|Hne];
      try clear port; try clear JSON_stringify; intuition (try congruence; auto).
Qed.

Lemma indexNodes_is_Some nodes k :
  is_Some (indexNodes nodes !! k) ↔ k ∈ (λ n, id (vertex n)) <$> nodes.
Proof.
  unfold indexNodes. rewrite indexNodes_lookup_gen, lookup_empty.
  split; [intros [[? ?]|?]; done | auto].
Qed.

Lemma indexNodes_Some_gen (nodes : list ForceNode) (m : gmap (option string) ForceNode) k n :
  foldl (λ m n, <[id (vertex n) := n]> m) m nodes !! k = Some n →
  m !! k = Some n ∨ (n ∈ nodes ∧ id (vertex n) = k).
Proof.
  revert m. induction nodes as [|n' nodes IH]; intros m; simpl; [auto|].
  intros H. apply IH in H as [H|[H1 H2]].
  - apply lookup_insert_Some in H as [[<- <-]|[_ H]]; [right|left]; [|done].
    split; [apply elem_of_cons; auto | done].
  - right. split; [apply elem_of_cons; auto | done].
Qed.

Lemma indexNodes_Some nodes k n :
  indexNodes nodes !! k = Some n → n ∈ nodes ∧ id (vertex n) = k.
Proof.
  intros H. apply indexNodes_Some_gen in H as [H|H]; [|done].
  by rewrite lookup_empty in H.
Qed.

Lemma makeNodes_ids vertices :
  (λ n, id (vertex n)) <$> makeNodes vertices = id <$> take maxNodes vertices.
Proof. unfold makeNodes. by rewrite <- list_fmap_compose. Qed.

Lemma linkOf_is_Some vertices e :
  is_Some (linkOf (indexNodes (makeNodes vertices)) e) ↔ resolvable vertices e.
Proof.
  unfold resolvable, survives. rewrite <- !makeNodes_ids, <- !indexNodes_is_Some.
  unfold linkOf.
  destruct (indexNodes (makeNodes vertices) !! inV e),
           (indexNodes (makeNodes vertices) !! outV e);
    split; intros H; try (by destruct H as [[? ?] [? ?]]); try (by destruct H); eauto.
Qed.

Lemma linkOf_edge m e l : linkOf m e = Some l → edge l = e.
Proof.
  unfold linkOf. destruct (m !! inV e), (m !! outV e); intros; by simplify_eq.
Qed.

Lemma omap_linkOf_edges vertices (edges : list ResultNode) :
  edge <$> omap (linkOf (indexNodes (makeNodes vertices))) edges
  = filter (resolvable vertices) edges.
Proof.
  induction edges as [|e edges IH]; [done|].
  rewrite filter_cons.
  change (omap ?f (e :: edges))
    with (match f e with Some y => y :: omap f edges | None => omap f edges end).
  destruct (linkOf (indexNodes (makeNodes vertices)) e) as [l|] eqn:Hl.
  - rewrite decide_True by (apply linkOf_is_Some; eauto).
    by rewrite fmap_cons, IH, (linkOf_edge _ _ _ Hl).
  - rewrite decide_False; [done|].
    intros Hr. apply linkOf_is_Some in Hr. rewrite Hl in Hr. by destruct Hr.
Qed.

Lemma graphNodes_vertices vertices :
  vertex <$> graphNodes vertices = take maxNodes vertices.
Proof.
  unfold graphNodes, makeNodes. rewrite <- list_fmap_compose.
  apply list_fmap_id.
Qed.

Lemma graphLinks_edges vertices (edges : list ResultNode) :
  edge <$> graphLinks vertices edges = take maxEdges (filter (resolvable vertices) edges).
Proof.
  unfold graphLinks. by rewrite makeLinks_omap, fmap_take, omap_linkOf_edges.
Qed.

Lemma graphNodes_length vertices :
  length (graphNodes vertices) = (length vertices `min` maxNodes)%nat.
Proof.
  unfold graphNodes, makeNodes. rewrite length_fmap, length_take. lia.
Qed.

Lemma graphLinks_length vertices (edges : list ResultNode) :
  length (graphLinks vertices edges)
  = (length (filter (resolvable vertices) edges) `min` maxEdges)%nat.
Proof.
  rewrite <- (length_fmap edge), graphLinks_edges, length_take. lia.
Qed.

(** Every link joins two of the rendered nodes, found under the edge's ids. *)
Lemma graphLinks_endpoints vertices edges l :
  l ∈ graphLinks vertices edges →
  source l ∈ graphNodes vertices ∧ id (vertex (source l)) = inV (edge l) ∧
  target l ∈ graphNodes vertices ∧ id (vertex (target l)) = outV (edge l).
Proof.
  unfold graphLinks, graphNodes. intros Hl.
  apply subseteq_take in Hl. rewrite makeLinks_omap in Hl.
  apply list_elem_of_omap in Hl as (e & _ & He).
  unfold linkOf in He.
  destruct (indexNodes (makeNodes vertices) !! inV e) as [s|] eqn:Hs; [|done].
  destruct (indexNodes (makeNodes vertices) !! outV e) as [t|] eqn:Ht; [|done].
  simplify_eq. simpl.
  apply indexNodes_Some in Hs as [? ?]. apply indexNodes_Some in Ht as [? ?]. done.
Qed.

(** ** Lemmas on [displayGraph] *)

Lemma alter_snoc {A} (f : A → A) (l : list A) (x : A) :
  alter f (length l) (l ++ [x]) = l ++ [f x].
Proof.
  replace (length l) with (length l + 0)%nat by lia.
  by rewrite alter_app_r.
Qed.

Lemma removeGraphElems_length svg : length (removeGraphElems svg) = length svg.
Proof. unfold removeGraphElems. apply length_fmap. Qed.

Lemma SvgElem_class_graph e : SvgElem_class e ∈ ["vertex"; "edge"; "label"].
Proof. destruct e; simpl; rewrite !elem_of_cons; auto. Qed.

Lemma removeGraphElems_concat svg : concat (removeGraphElems svg) = [].
Proof.
  unfold removeGraphElems. induction svg as [|g svg IH]; [done|].
  rewrite fmap_cons. simpl. rewrite IH, app_nil_r.
  induction g as [|e g IHg]; [done|].
  rewrite filter_cons, decide_False; [done|].
  intros H. apply H, SvgElem_class_graph.
Qed.

Lemma World_eq (a b : World) :
  this a = this b → dom a = dom b → forces a = forces b →
  emitted a = emitted b → console a = console b → a = b.
Proof. destruct a, b; simpl; congruence. Qed.

Lemma Dom_eq (a b : Dom) :
  states_class a = states_class b →
  graphRadio_checked a = graphRadio_checked b →
  jsonRadio_checked a = jsonRadio_checked b →
  graphSection_active a = graphSection_active b →
  jsonSection_active a = jsonSection_active b →
  graphSection_svg a = graphSection_svg b →
  jsonResults_value a = jsonResults_value b →
  queryError_value a = queryError_value b →
  queryInput_value a = queryInput_value b →
  stats_text a = stats_text b →
  title_text a = title_text b → a = b.
Proof. destruct a, b; simpl; congruence. Qed.

Lemma displayGraph_None vertices edges w :
  displayGraph None vertices edges w =
  ({| this := set_force (Some (length (forces w))) (this w);
      dom := set_svg (removeGraphElems (graphSection_svg (dom w)) ++ [drawn vertices edges])
               (set_stats_text
                  (statsText vertices edges (graphNodes vertices) (graphLinks vertices edges))
                  (dom w));
      forces := stopCurrent w ++ [startedSimulation vertices edges];
      emitted := emitted w;
      console := console w |}, Normal ()).
Proof.
  unfold stopCurrent, drawn, startedSimulation, graphLinks, graphNodes.
  js_unfold. cbn.
  destruct (_force (this w)); cbn; f_equal; apply World_eq; cbn;
    try reflexivity;
    try (apply Dom_eq; cbn; try reflexivity);
    unfold newSimulation;
    rewrite ?alter_snoc, ?length_alter, ?app_nil_l, <- ?app_assoc; reflexivity.
Qed.

Lemma displayGraph_completes fault vertices edges w :
  snd (displayGraph fault vertices edges w) = Normal ().
Proof. fault_cases fault w; reflexivity. Qed.

(** [displayGraph] writes the graph section, the stats line and the force
    layouts, and nothing else on the page or in the client. *)
Lemma displayGraph_frame fault vertices edges w :
  let w' := fst (displayGraph fault vertices edges w) in
  states_class (dom w') = states_class (dom w) ∧
  jsonResults_value (dom w') = jsonResults_value (dom w) ∧
  queryError_value (dom w') = queryError_value (dom w) ∧
  queryInput_value (dom w') = queryInput_value (dom w) ∧
  title_text (dom w') = title_text (dom w) ∧
  graphRadio_checked (dom w') = graphRadio_checked (dom w) ∧
  jsonRadio_checked (dom w') = jsonRadio_checked (dom w) ∧
  graphSection_active (dom w') = graphSection_active (dom w) ∧
  jsonSection_active (dom w') = jsonSection_active (dom w) ∧
  _currentQueryId (this w') = _currentQueryId (this w) ∧
  _graphView (this w') = _graphView (this w).
Proof. fault_cases fault w; repeat split; reflexivity. Qed.

(** A caught exception is logged: sent to the host and written to the
    console; without one nothing is logged. *)
Lemma displayGraph_log fault vertices edges w :
  let w' := fst (displayGraph fault vertices edges w) in
  match caught fault w with
  | Some err =>
      emitted w' = emitted w ++ [MsgLog err] ∧
      console w' = console w ++ ["Message to host: log " +:+ err; err]
  | None => emitted w' = emitted w ∧ console w' = console w
  end.
Proof.
  unfold caught.
  fault_cases fault w; rewrite <- ?app_assoc; split; reflexivity.
Qed.

(** ** At most one running layout *)

Lemma amc_weaken fs cur :
  at_most_current fs None → at_most_current fs cur.
Proof. intros H i s Hi Hs. by specialize (H i s Hi Hs). Qed.

Lemma amc_stop fs i :
  at_most_current fs (Some i) → at_most_current (alter (sim_setRunning false) i fs) None.
Proof.
  intros H j s Hj Hs. destruct (decide (i = j)) as [->|Hne].
  - rewrite list_lookup_alter_eq in Hj.
    destruct (fs !! j); simplify_eq/=.
  - rewrite list_lookup_alter_ne in Hj by done.
    specialize (H j s Hj Hs). congruence.
Qed.

Lemma amc_snoc fs s :
  sim_running s = false → at_most_current fs None → at_most_current (fs ++ [s]) None.
Proof.
  intros Hs H j s' Hj Hs'. apply lookup_app_Some in Hj as [Hj|[_ Hj]].
  - exact (H j s' Hj Hs').
  - apply list_lookup_singleton_Some in Hj as [_ <-]. congruence.
Qed.

Lemma amc_alter fs f i cur :
  (∀ s, sim_running (f s) = sim_running s) →
  at_most_current fs cur → at_most_current (alter f i fs) cur.
Proof.
  intros Hf H j s Hj Hs. destruct (decide (i = j)) as [->|Hne].
  - rewrite list_lookup_alter_eq in Hj.
    destruct (fs !! j) as [s'|] eqn:Hs'; simplify_eq/=.
    apply (H j s' Hs'). by rewrite <- Hf.
  - rewrite list_lookup_alter_ne in Hj by done. exact (H j s Hj Hs).
Qed.

Lemma amc_start fs i :
  at_most_current fs None → at_most_current (alter (sim_setRunning true) i fs) (Some i).
Proof.
  intros H j s Hj Hs. destruct (decide (i = j)) as [->|Hne]; [done|].
  rewrite list_lookup_alter_ne in Hj by done. by specialize (H j s Hj Hs).
Qed.

Ltac solve_amc :=
  repeat first
    [ assumption
    | apply amc_start
    | apply amc_alter; [intros; reflexivity|]
    | apply amc_snoc; [reflexivity|]
    | apply amc_stop
    | match goal with |- at_most_current _ (Some _) => apply amc_weaken end ].

Lemma displayGraph_keeps_one_force fault vertices edges :
  keeps one_force_invariant (displayGraph fault vertices edges).
Proof.
  intros w. unfold one_force_invariant.
  destruct fault as [[[] ?]|]; js_unfold; cbn;
    destruct (_force (this w)) eqn:Hf; cbn; rewrite ?Hf; intros H; solve_amc.
Qed.

(** After a complete [displayGraph] exactly the new layout runs. *)
Lemma displayGraph_activeForces vertices edges w :
  one_force_invariant w →
  activeForces (fst (displayGraph None vertices edges w)) = [length (forces w)].
Proof.
  intros H. rewrite displayGraph_None. unfold activeForces. cbn.
  assert (Hnone : at_most_current (stopCurrent w) None).
  { unfold stopCurrent, one_force_invariant in *.
    destruct (_force (this w)); solve_amc. }
  assert (Hlen : length (stopCurrent w) = length (forces w)).
  { unfold stopCurrent. destruct (_force (this w)); by rewrite ?length_alter. }
  rewrite length_app, Hlen. simpl length.
  rewrite Nat.add_1_r, seq_S, filter_app. simpl.
  rewrite filter_cons, filter_nil.
  rewrite decide_True.
  2:{ rewrite lookup_app_r by lia. by rewrite Hlen, Nat.sub_diag. }
  replace (filter _ (seq 0 (length (forces w)))) with (@nil nat); [done|].
  symmetry. apply elem_of_nil_inv. intros i Hi.
  apply list_elem_of_filter in Hi as [Hi Hin].
  apply elem_of_seq in Hin. rewrite lookup_app_l in Hi by lia.
  destruct (stopCurrent w !! i) as [s|] eqn:Hs; simplify_eq/=.
  by specialize (Hnone i s Hs Hi).
Qed.

Lemma activeForces_at_most_one w :
  one_force_invariant w → (length (activeForces w) ≤ 1)%nat.
Proof.
  unfold one_force_invariant, activeForces. intros H.
  assert (Hall : ∀ i, i ∈ filter (λ i, sim_running <$> forces w !! i = Some true)
                        (seq 0 (length (forces w))) → _force (this w) = Some i).
  { intros i Hi. apply list_elem_of_filter in Hi as [Hi _].
    destruct (forces w !! i) as [s|] eqn:Hs; simplify_eq/=. by apply (H i s). }
  assert (Hnd : NoDup (filter (λ i, sim_running <$> forces w !! i = Some true)
                         (seq 0 (length (forces w)))))
    by apply NoDup_filter, NoDup_seq.
  destruct (filter _ _) as [|a [|b l]]; simpl; [lia|lia|].
  exfalso. apply NoDup_cons in Hnd as [Hnot _].
  assert (a = b).
  { pose proof (Hall a ltac:(left)) as Ha.
    pose proof (Hall b ltac:(right; left)) as Hb. congruence. }
  subst. apply Hnot. left.
Qed.

(** ** Composition of computations *)

Lemma keeps_bind {A B} (I : World → Prop) (m : Js A) (k : A → Js B) :
  keeps I m → (∀ a, keeps I (k a)) → keeps I (m ≫= k).
Proof.
  intros Hm Hk w Hw. unfold mbind, Js_bind.
  specialize (Hm w Hw). destruct (m w) as [w' [a|e]]; simpl in *; [|done].
  by apply Hk.
Qed.

Lemma keeps_modify (I : World → Prop) (f : World → World) :
  (∀ w, I w → I (f w)) → keeps I (modify f).
Proof. intros H w Hw. by apply H. Qed.

Lemma keeps_gets {A} (I : World → Prop) (f : World → A) : keeps I (gets f).
Proof. by intros w Hw. Qed.

Lemma keeps_ret {A} (I : World → Prop) (a : A) : keeps I (mret a).
Proof. by intros w Hw. Qed.

Lemma keeps_d3 (I : World → Prop) fault s (effect : World → World) :
  (∀ w, I w → I (effect w)) → keeps I (d3 fault s effect).
Proof.
  intros H w Hw. unfold d3. destruct (throws fault s); simpl; [done|by apply H].
Qed.

(** Steps that leave the layouts and [this._force] alone keep the
    one-layout invariant. *)
Ltac keeps_step :=
  first
    [ apply keeps_bind; [|intros ?]
    | apply keeps_modify; intros ? ?; assumption
    | apply keeps_d3; intros ? ?; assumption
    | apply keeps_gets
    | apply keeps_ret
    | apply displayGraph_keeps_one_force ].

Lemma log_keeps_one_force s : keeps one_force_invariant (log s).
Proof. unfold log, emitToHost, logToUI. repeat keeps_step. Qed.

Lemma setStateQuerying_keeps_one_force : keeps one_force_invariant setStateQuerying.
Proof. unfold setStateQuerying, _setState, clearGraph. repeat keeps_step. Qed.

Lemma setStateError_keeps_one_force error : keeps one_force_invariant (setStateError error).
Proof. unfold setStateError, _setState, clearGraph. repeat keeps_step. Qed.

Lemma setView_keeps_one_force : keeps one_force_invariant setView.
Proof. unfold setView, emitToHost, logToUI. repeat keeps_step. Qed.

Lemma showResults_keeps_one_force fault queryResults edgeResults :
  keeps one_force_invariant (showResults fault queryResults edgeResults).
Proof.
  unfold showResults, splitVerticesAndEdges, setStateResults, _setState.
  repeat keeps_step. case_decide; repeat keeps_step.
Qed.

Lemma handler_keeps_one_force ev : keeps one_force_invariant (handler ev).
Proof.
  destruct ev; unfold handler.
  - unfold onConnect. repeat keeps_step.
  - apply log_keeps_one_force.
  - unfold onSetPageState. repeat keeps_step.
    destruct (PageState.isQueryRunning pageState).
    + repeat keeps_step.
    + apply keeps_bind.
      * destruct (PageState.errorMessage pageState) as [[|??]|];
          first [apply showResults_keeps_one_force | apply setStateError_keeps_one_force].
      * intros _. destruct (PageState.view pageState); repeat keeps_step.
  - unfold onSetTitle. repeat keeps_step.
  - unfold onShowResults. apply keeps_bind; [apply log_keeps_one_force|intros _].
    repeat keeps_step. case_decide;
      [apply log_keeps_one_force | apply showResults_keeps_one_force].
  - unfold onShowQueryError. apply keeps_bind; [apply log_keeps_one_force|intros _].
    repeat keeps_step. case_decide;
      [apply log_keeps_one_force | apply setStateError_keeps_one_force].
  - unfold getPageState. repeat keeps_step.
  - unfold query. repeat keeps_step.
  - unfold selectGraphView. repeat keeps_step.
  - unfold selectJsonView. repeat keeps_step.
  - unfold setQuery. repeat keeps_step.
Qed.

Lemma dispatch_keeps (I : World → Prop) :
  (∀ w s, I w → I (with_console s w)) →
  (∀ ev, keeps I (handler ev)) →
  ∀ w ev, I w → I (dispatch w ev).
Proof.
  intros Hc Hh w ev Hw. unfold dispatch.
  specialize (Hh ev w Hw). destruct (handler ev w) as [w' [a|e]]; simpl in *; [done|].
  by apply Hc.
Qed.

Lemma run_keeps (I : World → Prop) :
  (∀ w s, I w → I (with_console s w)) →
  (∀ ev, keeps I (handler ev)) →
  ∀ evs w, I w → I (run evs w).
Proof.
  intros Hc Hh evs. unfold run.
  induction evs as [|ev evs IH]; intros w Hw; simpl; [done|].
  apply IH. by apply dispatch_keeps.
Qed.

Lemma constructor_one_force page : one_force_invariant (constructor page).
Proof.
  intros i s Hi. change (forces (constructor page)) with (@nil Simulation) in Hi.
  by rewrite lookup_nil in Hi.
Qed.

Lemma run_one_force page evs : one_force_invariant (run evs (constructor page)).
Proof.
  apply run_keeps; [by intros w s H | apply handler_keeps_one_force
                   | apply constructor_one_force].
Qed.

(** ** What a complete [displayGraph] shows *)

Lemma stopCurrent_length w : length (stopCurrent w) = length (forces w).
Proof. unfold stopCurrent. destruct (_force (this w)); by rewrite ?length_alter. Qed.

Lemma displayGraph_svgElems vertices edges w :
  svgElems (exec (displayGraph None vertices edges) w) = drawn vertices edges.
Proof.
  unfold exec, svgElems. rewrite displayGraph_None. cbn.
  rewrite concat_app, removeGraphElems_concat. simpl. by rewrite app_nil_r.
Qed.

Lemma omap_fmap_Some {A B} (mk : A → B) (sel : B → option A) (l : list A) :
  (∀ a, sel (mk a) = Some a) → omap sel (mk <$> l) = l.
Proof.
  intros H. induction l as [|a l IH]; [done|].
  rewrite fmap_cons. cbn [omap list_omap]. rewrite H. f_equal. exact IH.
Qed.

Lemma omap_fmap_None {A B C} (mk : A → B) (sel : B → option C) (l : list A) :
  (∀ a, sel (mk a) = None) → omap sel (mk <$> l) = [].
Proof.
  intros H. induction l as [|a l IH]; [done|].
  rewrite fmap_cons. cbn [omap list_omap]. rewrite H. exact IH.
Qed.

Lemma displayGraph_renderedNodes vertices edges w :
  renderedNodes (exec (displayGraph None vertices edges) w) = graphNodes vertices.
Proof.
  unfold renderedNodes. rewrite displayGraph_svgElems. unfold drawn.
  rewrite !omap_app.
  rewrite (omap_fmap_None Line), (omap_fmap_None Text), (omap_fmap_Some Circle); done.
Qed.

Lemma displayGraph_renderedLinks vertices edges w :
  renderedLinks (exec (displayGraph None vertices edges) w) = graphLinks vertices edges.
Proof.
  unfold renderedLinks. rewrite displayGraph_svgElems. unfold drawn.
  rewrite !omap_app.
  rewrite (omap_fmap_Some Line), (omap_fmap_None Text), (omap_fmap_None Circle); try done.
  by rewrite !app_nil_r.
Qed.

Lemma displayGraph_renderedLabels vertices edges w :
  renderedLabels (exec (displayGraph None vertices edges) w) = graphNodes vertices.
Proof.
  unfold renderedLabels. rewrite displayGraph_svgElems. unfold drawn.
  rewrite !omap_app.
  rewrite (omap_fmap_None Line), (omap_fmap_Some Text), (omap_fmap_None Circle); try done.
  by rewrite app_nil_r.
Qed.

Lemma displayGraph_currentForce vertices edges w :
  currentForce (exec (displayGraph None vertices edges) w)
  = Some (startedSimulation vertices edges).
Proof.
  unfold exec, currentForce. rewrite displayGraph_None. cbn.
  rewrite lookup_app_r by (rewrite stopCurrent_length; lia).
  by rewrite stopCurrent_length, Nat.sub_diag.
Qed.

(** ** Properties of the client *)

(** C1. A [showResults] or [showQueryError] message whose id is not the
    client's current query id is discarded: the handler completes, sends two
    log messages to the host, and leaves the page (state class, JSON text,
    error text, graph, stats), the client's fields and the force layouts
    exactly as they were. *)
Theorem stale_reply_discarded fault queryId queryResults edgeResults error w :
  queryId ≠ _currentQueryId (this w) →
  let w1 := exec (onShowResults fault queryId queryResults edgeResults) w in
  let w2 := exec (onShowQueryError queryId error) w in
  (dom w1 = dom w ∧ this w1 = this w ∧ forces w1 = forces w ∧
   emitted w1 = emitted w ++
     [MsgLog ("Received results for query " +:+ pretty queryId +:+ " - "
              +:+ pretty (length queryResults) +:+ " data points, plus "
              +:+ pretty (length edgeResults) +:+ " edges");
      MsgLog "  Ignoring results, out of date"] ∧
   outcome (onShowResults fault queryId queryResults edgeResults) w = Normal ()) ∧
  (dom w2 = dom w ∧ this w2 = this w ∧ forces w2 = forces w ∧
   emitted w2 = emitted w ++
     [MsgLog ("Received error for query " +:+ pretty queryId +:+ " - " +:+ error);
      MsgLog "  Ignoring error, out of date"] ∧
   outcome (onShowQueryError queryId error) w = Normal ()).
Proof.
  intros Hne. unfold onShowResults, onShowQueryError. js_unfold. cbn.
  repeat (rewrite decide_True by done; cbn).
  rewrite <- !app_assoc. repeat split; reflexivity.
Qed.

(** C2. [displayGraph], when none of its d3 calls throws, renders
    min(N, 300) nodes and min(K, 1000) links,
    where N is the number of vertices and K the number of edges both of whose
    endpoints are ids of vertices among the first 300; the links are the
    first 1000 of those K edges, so the edge cap comes after endpoint
    resolution.  The force layout is given the same nodes and links. *)
Theorem displayGraph_counts vertices edges w :
  let w' := exec (displayGraph None vertices edges) w in
  length (renderedNodes w') = (length vertices `min` 300)%nat ∧
  length (renderedLinks w')
    = (length (filter (resolvable vertices) edges) `min` 1000)%nat ∧
  vertex <$> renderedNodes w' = take maxNodes vertices ∧
  edge <$> renderedLinks w' = take maxEdges (filter (resolvable vertices) edges) ∧
  (sim_nodes <$> currentForce w') = Some (renderedNodes w') ∧
  (sim_links <$> currentForce w') = Some (renderedLinks w').
Proof.
  cbn zeta.
  rewrite displayGraph_renderedNodes, displayGraph_renderedLinks,
    displayGraph_currentForce.
  rewrite graphNodes_length, graphLinks_length, graphNodes_vertices, graphLinks_edges.
  repeat split; reflexivity.
Qed.

(** C3. An edge whose [inV] or [outV] is not the id of a vertex among the
    first 300 is dropped: it is not the edge of any rendered link nor of any
    link given to the force layout, and [displayGraph] (no d3 call throwing)
    completes without logging anything or touching the error text and the
    state class. *)
Theorem dangling_edge_dropped vertices edges e w :
  e ∈ edges →
  (¬ survives vertices (inV e)) ∨ (¬ survives vertices (outV e)) →
  let w' := exec (displayGraph None vertices edges) w in
  (e ∉ (edge <$> renderedLinks w')) ∧
  (∀ s, currentForce w' = Some s → e ∉ (edge <$> sim_links s)) ∧
  outcome (displayGraph None vertices edges) w = Normal () ∧
  emitted w' = emitted w ∧ console w' = console w ∧
  queryError_value (dom w') = queryError_value (dom w) ∧
  states_class (dom w') = states_class (dom w).
Proof.
  intros _ Habsent. cbn zeta.
  assert (Hnot : e ∉ (edge <$> graphLinks vertices edges)).
  { rewrite graphLinks_edges. intros Hin. apply subseteq_take in Hin.
    apply list_elem_of_filter in Hin as [[Hs Ht] _]. prop_solve. }
  rewrite displayGraph_renderedLinks, displayGraph_currentForce.
  split; [done|]. split; [by intros s [= <-]|].
  unfold exec, outcome. rewrite displayGraph_None. repeat split; reflexivity.
Qed.

Lemma showResults_no_vertices fault queryResults edgeResults w :
  filter (λ n, type n = Some "vertex") queryResults = [] →
  showResults fault queryResults edgeResults w
  = (with_dom (set_states_class "state-json-results state-results")
       (with_console (λ c, c ++ [JSON_stringify queryResults])
          (with_dom (set_jsonResults_value (JSON_stringify queryResults)) w)),
     Normal ()).
Proof.
  intros Hv. unfold showResults, splitVerticesAndEdges. rewrite Hv.
  js_unfold. reflexivity.
Qed.

(** C4. When an accepted result set has no record of type "vertex", the
    client shows JSON only: the state class becomes json-results, the JSON
    text is the result set, and the graph section, the stats line and the
    force layouts are left as they were.  This holds for a reply with the
    current query id whatever [_graphView] is, and for results replayed by
    [setPageState] whatever view the page state carries. *)
Theorem no_vertices_json_only fault queryResults edgeResults w :
  filter (λ n, type n = Some "vertex") queryResults = [] →
  json_only queryResults w (exec (showResults fault queryResults edgeResults) w) ∧
  json_only queryResults w
    (exec (onShowResults fault (_currentQueryId (this w)) queryResults edgeResults) w) ∧
  ∀ runningQueryId errorMessage query view,
    errorMessage = None ∨ errorMessage = Some "" →
    json_only queryResults w
      (exec (onSetPageState fault
               {| PageState.queryResults := queryResults;
                  PageState.edgeResults := edgeResults;
                  PageState.isQueryRunning := false;
                  PageState.runningQueryId := runningQueryId;
                  PageState.errorMessage := errorMessage;
                  PageState.query := query;
                  PageState.view := view |}) w).
Proof.
  intros Hv. unfold json_only. split; [|split].
  - unfold exec. rewrite showResults_no_vertices by done.
    repeat split; reflexivity.
  - unfold exec, onShowResults, log, emitToHost, logToUI, gets, modify,
      mbind, Js_bind. cbn.
    rewrite decide_False by (intros H; by apply H).
    rewrite showResults_no_vertices by done. repeat split; reflexivity.
  - intros runningQueryId errorMessage query view Herr.
    unfold exec, onSetPageState, modify, mbind, Js_bind. cbn.
    assert (Hshow : ∀ w0,
      match errorMessage with
      | Some "" | None => showResults fault queryResults edgeResults
      | Some errorMessage0 => setStateError errorMessage0
      end w0 = showResults fault queryResults edgeResults w0)
      by (by destruct Herr as [-> | ->]).
    rewrite Hshow, showResults_no_vertices by done.
    destruct view; js_unfold; cbn; repeat split; reflexivity.
Qed.

Lemma filter_length_all {A} (P : A → Prop) `{∀ x, Decision (P x)} (l : list A) :
  length (filter P l) = length l ↔ Forall P l.
Proof.
  induction l as [|a l IH].
  - split; [constructor|done].
  - rewrite filter_cons, Forall_cons. pose proof (length_filter P l) as Hle.
    destruct (decide (P a)); simpl.
    + rewrite <- IH. split; [intros [= ?]; done | intros [_ ->]; done].
    + split; [lia | prop_solve].
Qed.

Lemma noTruncation_iff vertices (edges : list ResultNode) :
  length (graphNodes vertices) = length vertices ∧
  length (graphLinks vertices edges) = length edges
  ↔ noTruncation vertices edges.
Proof.
  rewrite graphNodes_length, graphLinks_length. unfold noTruncation.
  rewrite <- (filter_length_all (resolvable vertices) edges).
  pose proof (length_filter (resolvable vertices) edges).
  unfold maxNodes, maxEdges. lia.
Qed.

Lemma displayGraph_stats vertices edges w :
  stats_text (dom (exec (displayGraph None vertices edges) w))
  = statsText vertices edges (graphNodes vertices) (graphLinks vertices edges).
Proof. unfold exec. by rewrite displayGraph_None. Qed.

(** C5. After a [displayGraph] in which no d3 call throws, the stats line
    reads "Displaying all N vertices and L edges" exactly
    when nothing was cut (at most 300 vertices, at most 1000 edges, every
    edge joining two surviving vertices); otherwise it gives "X of Y" for the
    vertices and for the edges.  With 2 vertices and 1 resolvable edge it
    reads "Displaying all 2 vertices and 1 edges"; with 350 vertices and no
    edge, "Displaying 300 of 350 vertices and 0 of 0 edges". *)
Theorem stats_line vertices edges w :
  let shown := stats_text (dom (exec (displayGraph None vertices edges) w)) in
  let N := length vertices in
  let L := length edges in
  let K := length (filter (resolvable vertices) edges) in
  (noTruncation vertices edges →
   shown = "Displaying all " +:+ pretty N +:+ " vertices and " +:+ pretty L +:+ " edges") ∧
  (¬ noTruncation vertices edges →
   shown = "Displaying " +:+ pretty (N `min` 300)%nat +:+ " of " +:+ pretty N
           +:+ " vertices and " +:+ pretty (K `min` 1000)%nat +:+ " of "
           +:+ pretty L +:+ " edges") ∧
  (N = 2%nat → L = 1%nat → Forall (resolvable vertices) edges →
   shown = "Displaying all 2 vertices and 1 edges") ∧
  (N = 350%nat → L = 0%nat →
   shown = "Displaying 300 of 350 vertices and 0 of 0 edges").
Proof.
  cbn zeta. rewrite displayGraph_stats. unfold statsText.
  assert (Hall : noTruncation vertices edges →
    (if decide (length (graphNodes vertices) = length vertices
                ∧ length (graphLinks vertices edges) = length edges)
     then "Displaying all " +:+ pretty (length (graphNodes vertices)) +:+ " vertices and "
          +:+ pretty (length (graphLinks vertices edges)) +:+ " edges"
     else "Displaying " +:+ pretty (length (graphNodes vertices)) +:+ " of "
          +:+ pretty (length vertices) +:+ " vertices and "
          +:+ pretty (length (graphLinks vertices edges)) +:+ " of "
          +:+ pretty (length edges) +:+ " edges")
    = "Displaying all " +:+ pretty (length vertices) +:+ " vertices and "
      +:+ pretty (length edges) +:+ " edges").
  { intros Hn. apply noTruncation_iff in Hn as Hlen.
    rewrite decide_True by done. destruct Hlen as [-> ->]. done. }
  assert (Hcut : ¬ noTruncation vertices edges →
    (if decide (length (graphNodes vertices) = length vertices
                ∧ length (graphLinks vertices edges) = length edges)
     then "Displaying all " +:+ pretty (length (graphNodes vertices)) +:+ " vertices and "
          +:+ pretty (length (graphLinks vertices edges)) +:+ " edges"
     else "Displaying " +:+ pretty (length (graphNodes vertices)) +:+ " of "
          +:+ pretty (length vertices) +:+ " vertices and "
          +:+ pretty (length (graphLinks vertices edges)) +:+ " of "
          +:+ pretty (length edges) +:+ " edges")
    = "Displaying " +:+ pretty (length vertices `min` 300)%nat +:+ " of "
      +:+ pretty (length vertices) +:+ " vertices and "
      +:+ pretty (length (filter (resolvable vertices) edges) `min` 1000)%nat +:+ " of "
      +:+ pretty (length edges) +:+ " edges").
  { intros Hn. rewrite decide_False by (by rewrite noTruncation_iff).
    by rewrite graphNodes_length, graphLinks_length. }
  split; [exact Hall|]. split; [exact Hcut|]. split.
  - intros HN HL Hres. rewrite Hall.
    + rewrite HN, HL. reflexivity.
    + unfold noTruncation, maxNodes, maxEdges. rewrite HN, HL. repeat split; [lia|lia|done].
  - intros HN HL. rewrite Hcut.
    + destruct edges; [|done]. rewrite HN. reflexivity.
    + unfold noTruncation, maxNodes. rewrite HN. lia.
Qed.

Lemma activeForces_current w :
  one_force_invariant w →
  activeForces w = [] ∨ ∃ i, activeForces w = [i] ∧ _force (this w) = Some i.
Proof.
  intros H. pose proof (activeForces_at_most_one w H) as Hlen.
  destruct (activeForces w) as [|i [|j l]] eqn:Ha; [by left| |simpl in Hlen; lia].
  right. exists i. split; [done|].
  assert (Hi : i ∈ activeForces w) by (rewrite Ha; left).
  unfold activeForces in Hi. apply list_elem_of_filter in Hi as [Hi _].
  destruct (forces w !! i) as [s|] eqn:Hs; simplify_eq/=. by apply (H i s).
Qed.

(** C6. In every world the client reaches from its construction, whatever
    the events and whichever d3 calls throw, at most one force layout is
    running, and it is the one [_force] refers to.  A complete [displayGraph]
    from such a world leaves exactly one layout running: the new one, with
    its tick listener registered and the new nodes and links; a layout that
    ran before is stopped. *)
Theorem one_simulation_active page evs :
  let w := run evs (constructor page) in
  (length (activeForces w) ≤ 1)%nat ∧
  (activeForces w = [] ∨ ∃ i, activeForces w = [i] ∧ _force (this w) = Some i) ∧
  ∀ vertices edges,
    let w' := exec (displayGraph None vertices edges) w in
    activeForces w' = [length (forces w)] ∧
    _force (this w') = Some (length (forces w)) ∧
    currentForce w' =
      Some {| sim_nodes := graphNodes vertices; sim_links := graphLinks vertices edges;
              sim_params := Some forceParams;
              sim_drag := true; sim_onTick := true; sim_running := true |}.
Proof.
  cbn zeta. pose proof (run_one_force page evs) as H.
  split; [by apply activeForces_at_most_one|].
  split; [by apply activeForces_current|].
  intros vertices edges. split; [by apply displayGraph_activeForces|].
  split; [|apply displayGraph_currentForce].
  unfold exec. by rewrite displayGraph_None.
Qed.

(** ** Querying and error states show no graph *)

Lemma graphElems_removed w svg :
  graphSection_svg (dom w) = removeGraphElems svg → graphElems w = [].
Proof.
  intros H. unfold graphElems, svgElems. by rewrite H, removeGraphElems_concat.
Qed.

Lemma results_class_not_cleared c :
  c = "state-json-results state-results" ∨ c = "state-graph-results state-results" →
  c ∉ ["state-querying"; "state-error"].
Proof.
  intros [-> | ->] Hin;
    apply elem_of_cons in Hin as [Hin|Hin]; try discriminate;
    apply elem_of_cons in Hin as [Hin|Hin]; try discriminate;
    by apply elem_of_nil in Hin.
Qed.

Lemma showResults_completes fault queryResults edgeResults w :
  snd (showResults fault queryResults edgeResults w) = Normal ().
Proof.
  unfold showResults, splitVerticesAndEdges.
  unfold setStateResults, _setState, modify, mbind, Js_bind. cbn.
  case_decide; [done|]. apply displayGraph_completes.
Qed.

Lemma showResults_class fault queryResults edgeResults w :
  let c := states_class (dom (fst (showResults fault queryResults edgeResults w))) in
  c = "state-json-results state-results" ∨ c = "state-graph-results state-results".
Proof.
  unfold showResults, splitVerticesAndEdges.
  unfold setStateResults, _setState, modify, mbind, Js_bind. cbn.
  case_decide; [by left|]. right.
  by rewrite (proj1 (displayGraph_frame _ _ _ _)).
Qed.

Lemma handler_keeps_cleared ev : keeps cleared_invariant (handler ev).
Proof.
  intros w Hw. destruct ev; unfold handler.
  - exact Hw.
  - exact Hw.
  - unfold onSetPageState, modify, mbind, Js_bind. cbn.
    destruct (PageState.isQueryRunning pageState).
    + intros _. by eapply graphElems_removed.
    + destruct (PageState.errorMessage pageState) as [[|a m]|].
      1,3: match goal with |- context [showResults ?f ?q ?e ?w0] =>
             pose proof (showResults_completes f q e w0) as Hn;
             pose proof (showResults_class f q e w0) as Hc;
             destruct (showResults f q e w0) as [w1 [[]|?]]; [|done]
           end;
           cbn in Hc; intros Hin; exfalso;
           apply (results_class_not_cleared _ Hc);
           by destruct (PageState.view pageState).
      intros _. destruct (PageState.view pageState); by eapply graphElems_removed.
  - exact Hw.
  - unfold onShowResults, log, emitToHost, logToUI, gets, modify, mbind, Js_bind. cbn.
    case_decide; [exact Hw|].
    match goal with |- context [showResults ?f ?q ?e ?w0] =>
      pose proof (showResults_class f q e w0) as Hc
    end.
    intros Hin. exfalso. by apply (results_class_not_cleared _ Hc).
  - unfold onShowQueryError. js_unfold. cbn.
    case_decide; [exact Hw|]. intros _. by eapply graphElems_removed.
  - exact Hw.
  - intros _. by eapply graphElems_removed.
  - exact Hw.
  - exact Hw.
  - exact Hw.
Qed.

Lemma run_cleared page evs : cleared_invariant (run evs (constructor page)).
Proof.
  apply run_keeps; [by intros w s H | apply handler_keeps_cleared|].
  intros Hin. exfalso.
  change (states_class (dom (constructor page))) with "state-empty" in Hin.
  apply elem_of_cons in Hin as [Hin|Hin]; try discriminate.
  apply elem_of_cons in Hin as [Hin|Hin]; try discriminate.
  by apply elem_of_nil in Hin.
Qed.

(** C7 (amended). [clearGraph] runs on every transition into the querying
    and the error state and removes every vertex, edge and label element, so
    in every reachable querying or error state none is on screen.  It leaves
    the force layout alone: [_force] and the layouts, with their node and link
    wrappers, are as before.  Only the next [displayGraph] replaces them: it
    stops the layout [_force] referred to, keeps every old layout in place
    with its nodes and links, and appends a new layout with new wrappers,
    which becomes [_force]. *)
Theorem clearGraph_on_querying_and_error page evs :
  (let w := run evs (constructor page) in
   states_class (dom w) ∈ ["state-querying"; "state-error"] → graphElems w = []) ∧
  (∀ w, let w' := exec setStateQuerying w in
        states_class (dom w') = "state-querying" ∧ graphElems w' = [] ∧
        forces w' = forces w ∧ _force (this w') = _force (this w)) ∧
  (∀ error w, let w' := exec (setStateError error) w in
        states_class (dom w') = "state-error" ∧ graphElems w' = [] ∧
        forces w' = forces w ∧ _force (this w') = _force (this w)) ∧
  (∀ vertices edges w, let w' := exec (displayGraph None vertices edges) w in
        forces w' =
          match _force (this w) with
          | Some i => alter (sim_setRunning false) i (forces w)
          | None => forces w
          end ++ [startedSimulation vertices edges] ∧
        (∀ i s, _force (this w) = Some i → forces w !! i = Some s →
                forces w' !! i = Some (sim_setRunning false s)) ∧
        (∀ i, _force (this w) ≠ Some i → (i < length (forces w))%nat →
              forces w' !! i = forces w !! i) ∧
        _force (this w') = Some (length (forces w)) ∧
        currentForce w' = Some (startedSimulation vertices edges) ∧
        renderedNodes w' = graphNodes vertices ∧
        renderedLinks w' = graphLinks vertices edges).
Proof.
  split; [apply run_cleared|]. split; [|split].
  - intros w. cbn zeta. repeat split; try reflexivity.
    by eapply graphElems_removed.
  - intros error w. cbn zeta. repeat split; try reflexivity.
    by eapply graphElems_removed.
  - intros vertices edges w. cbn zeta.
    rewrite displayGraph_currentForce, displayGraph_renderedNodes,
      displayGraph_renderedLinks.
    assert (Hf : forces (exec (displayGraph None vertices edges) w)
                 = stopCurrent w ++ [startedSimulation vertices edges])
      by (unfold exec; by rewrite displayGraph_None).
    rewrite Hf. unfold stopCurrent.
    split; [reflexivity|]. split; [|split; [|split]]; [| | |by repeat split].
    + intros i s Hi Hs. rewrite Hi.
      rewrite lookup_app_l by (rewrite length_alter; by eapply lookup_lt_Some).
      by rewrite list_lookup_alter_eq, Hs.
    + intros i Hi Hlt. destruct (_force (this w)) as [j|].
      * rewrite lookup_app_l by (by rewrite length_alter).
        apply list_lookup_alter_ne. congruence.
      * by rewrite lookup_app_l.
    + unfold exec. by rewrite displayGraph_None.
Qed.

Lemma showResults_with_vertices fault queryResults edgeResults w :
  filter (λ n, type n = Some "vertex") queryResults ≠ [] →
  showResults fault queryResults edgeResults w
  = displayGraph fault
      (filter (λ n, type n = Some "vertex") queryResults)
      (filter (λ n, type n = Some "edge") queryResults ++ edgeResults)
      (with_dom (set_states_class "state-graph-results state-results")
         (with_console (λ c, c ++ [JSON_stringify queryResults])
            (with_dom (set_jsonResults_value (JSON_stringify queryResults)) w))).
Proof.
  intros Hv. unfold showResults, splitVerticesAndEdges.
  unfold setStateResults, _setState, modify, mbind, Js_bind. cbn.
  rewrite decide_False; [done|].
  by destruct (filter _ queryResults).
Qed.

Lemma onShowResults_current fault queryResults edgeResults w :
  exec (onShowResults fault (_currentQueryId (this w)) queryResults edgeResults) w
  = exec (showResults fault queryResults edgeResults)
      (exec (log ("Received results for query " +:+ pretty (_currentQueryId (this w))
                  +:+ " - " +:+ pretty (length queryResults) +:+ " data points, plus "
                  +:+ pretty (length edgeResults) +:+ " edges")) w).
Proof.
  unfold exec, onShowResults, log, emitToHost, logToUI, gets, modify, mbind, Js_bind.
  cbn. by rewrite decide_False by (intros H; by apply H).
Qed.

(** C8. When an accepted result set has at least one vertex, the graph is
    built from the records of type "vertex" and from the list made of the
    records of type "edge" of the result set followed by the out-of-band edge
    list, nothing removed: the links are the first 1000 resolvable edges of
    that list, the force layout gets the same, and the stats line counts the
    whole list. *)
Theorem edges_concatenated fault queryResults edgeResults w :
  filter (λ n, type n = Some "vertex") queryResults ≠ [] →
  let vertices := filter (λ n, type n = Some "vertex") queryResults in
  let edges := filter (λ n, type n = Some "edge") queryResults ++ edgeResults in
  showResults fault queryResults edgeResults w
  = displayGraph fault vertices edges
      (with_dom (set_states_class "state-graph-results state-results")
         (with_console (λ c, c ++ [JSON_stringify queryResults])
            (with_dom (set_jsonResults_value (JSON_stringify queryResults)) w))) ∧
  let w' := exec (onShowResults None (_currentQueryId (this w)) queryResults edgeResults) w in
  edge <$> renderedLinks w' = take maxEdges (filter (resolvable vertices) edges) ∧
  sim_links <$> currentForce w' = Some (graphLinks vertices edges) ∧
  stats_text (dom w')
  = statsText vertices edges (graphNodes vertices) (graphLinks vertices edges).
Proof.
  intros Hv. cbn zeta. split; [by apply showResults_with_vertices|].
  rewrite onShowResults_current. unfold exec at 1 3 5.
  rewrite showResults_with_vertices by done.
  match goal with |- context [displayGraph None ?v ?e ?w0] =>
    change (fst (displayGraph None v e w0)) with (exec (displayGraph None v e) w0)
  end.
  rewrite displayGraph_renderedLinks, displayGraph_currentForce, displayGraph_stats.
  by rewrite graphLinks_edges.
Qed.

Lemma filter_graph_class (l : list SvgElem) :
  filter (λ e, SvgElem_class e ∈ ["vertex"; "edge"; "label"]) l = l.
Proof.
  induction l as [|e l IH]; [done|].
  rewrite filter_cons, decide_True by apply SvgElem_class_graph. by rewrite IH.
Qed.

Lemma graphElems_last_group w svg g :
  graphSection_svg (dom w) = removeGraphElems svg ++ [g] → graphElems w = g.
Proof.
  intros H. unfold graphElems, svgElems.
  rewrite H, concat_app, removeGraphElems_concat, filter_graph_class.
  simpl. by rewrite app_nil_r.
Qed.





Lemma filter_graphTyped_vertex (l : list ResultNode) :
  filter (λ n, type n = Some "vertex") (filter graphTyped l)
  = filter (λ n, type n = Some "vertex") l.
Proof.
  rewrite list_filter_filter. apply list_filter_iff.
  intros n. unfold graphTyped. prop_solve.
Qed.

Lemma filter_graphTyped_edge (l : list ResultNode) :
  filter (λ n, type n = Some "edge") (filter graphTyped l)
  = filter (λ n, type n = Some "edge") l.
Proof.
  rewrite list_filter_filter. apply list_filter_iff.
  intros n. unfold graphTyped. prop_solve.
Qed.

(** [displayGraph] neither reads nor writes the JSON text and reads nothing
    of the console. *)
Lemma displayGraph_json_irrelevant fault vertices edges c j1 j2 (f1 f2 : list string → list string) w :
  let w1 := fst (displayGraph fault vertices edges
              (with_dom (set_states_class c)
                 (with_console f1 (with_dom (set_jsonResults_value j1) w)))) in
  let w2 := fst (displayGraph fault vertices edges
              (with_dom (set_states_class c)
                 (with_console f2 (with_dom (set_jsonResults_value j2) w)))) in
  this w1 = this w2 ∧ forces w1 = forces w2 ∧ emitted w1 = emitted w2 ∧
  graphSection_svg (dom w1) = graphSection_svg (dom w2) ∧
  stats_text (dom w1) = stats_text (dom w2) ∧
  states_class (dom w1) = states_class (dom w2) ∧
  queryError_value (dom w1) = queryError_value (dom w2).
Proof. fault_cases fault w; repeat split; reflexivity. Qed.

Lemma showResults_json fault queryResults edgeResults w :
  jsonResults_value (dom (exec (showResults fault queryResults edgeResults) w))
  = JSON_stringify queryResults.
Proof.
  unfold exec.
  destruct (decide (filter (λ n, type n = Some "vertex") queryResults = [])) as [Hv|Hv].
  - by rewrite showResults_no_vertices.
  - rewrite showResults_with_vertices by done.
    pose proof (displayGraph_frame fault
      (filter (λ n, type n = Some "vertex") queryResults)
      (filter (λ n, type n = Some "edge") queryResults ++ edgeResults)
      (with_dom (set_states_class "state-graph-results state-results")
         (with_console (λ c, c ++ [JSON_stringify queryResults])
            (with_dom (set_jsonResults_value (JSON_stringify queryResults)) w)))) as H.
    cbn zeta in H. destruct H as (_ & -> & _). reflexivity.
Qed.

(** C10. A record of the accepted result set whose [type] is neither
    "vertex" nor "edge" (or is missing) takes no part in the graph: the
    client, the layouts, the messages sent, the graph section, the stats line
    and the state class come out the same as if all such records had been
    removed from the result set beforehand; it is the vertex of no rendered
    node, and the edge of a rendered link only if the out-of-band edge list
    holds it too.  The JSON text is [JSON.stringify] of the result set as
    received, such records included, and does not depend on the out-of-band
    edge list. *)
Theorem other_records_json_only fault queryResults edgeResults w :
  let w1 := exec (showResults fault queryResults edgeResults) w in
  let w2 := exec (showResults fault (filter graphTyped queryResults) edgeResults) w in
  jsonResults_value (dom w1) = JSON_stringify queryResults ∧
  (this w1 = this w2 ∧ forces w1 = forces w2 ∧ emitted w1 = emitted w2 ∧
   graphSection_svg (dom w1) = graphSection_svg (dom w2) ∧
   stats_text (dom w1) = stats_text (dom w2) ∧
   states_class (dom w1) = states_class (dom w2)) ∧
  ∀ r, r ∈ queryResults → ¬ graphTyped r →
    filter (λ n, type n = Some "vertex") queryResults ≠ [] →
    let w' := exec (showResults None queryResults edgeResults) w in
    (r ∉ (vertex <$> renderedNodes w')) ∧
    (r ∈ (edge <$> renderedLinks w') → r ∈ edgeResults).
Proof.
  cbn zeta. split; [apply showResults_json|]. split.
  - unfold exec.
    destruct (decide (filter (λ n, type n = Some "vertex") queryResults = [])) as [Hv|Hv].
    + rewrite !showResults_no_vertices by (by rewrite ?filter_graphTyped_vertex).
      repeat split; reflexivity.
    + rewrite !showResults_with_vertices by (by rewrite ?filter_graphTyped_vertex).
      rewrite filter_graphTyped_vertex, filter_graphTyped_edge.
      pose proof (displayGraph_json_irrelevant fault
        (filter (λ n, type n = Some "vertex") queryResults)
        (filter (λ n, type n = Some "edge") queryResults ++ edgeResults)
        "state-graph-results state-results"
        (JSON_stringify queryResults) (JSON_stringify (filter graphTyped queryResults))
        (λ c, c ++ [JSON_stringify queryResults])
        (λ c, c ++ [JSON_stringify (filter graphTyped queryResults)]) w) as H.
      cbn zeta in H. prop_solve.
  - intros r _ Hr Hv. unfold exec. rewrite showResults_with_vertices by done.
    match goal with |- context [displayGraph None ?v ?e ?w0] =>
      change (fst (displayGraph None v e w0)) with (exec (displayGraph None v e) w0)
    end.
    rewrite displayGraph_renderedNodes, displayGraph_renderedLinks.
    rewrite graphNodes_vertices, graphLinks_edges. split.
    + intros Hin. apply subseteq_take in Hin.
      apply list_elem_of_filter in Hin as [Ht _]. apply Hr. by left.
    + intros Hin. apply subseteq_take in Hin.
      apply list_elem_of_filter in Hin as [_ Hin].
      apply elem_of_app in Hin as [Hin|Hin]; [|done].
      apply list_elem_of_filter in Hin as [Ht _]. exfalso. apply Hr. by right.
Qed.

(** ** Further properties: the graph that is built *)

Lemma splitVerticesAndEdges_perm (nodes : list ResultNode) :
  filter (λ n, type n = Some "vertex") nodes ++ filter (λ n, type n = Some "edge") nodes
  ≡ₚ filter graphTyped nodes.
Proof.
  induction nodes as [|n nodes IH]; [done|].
  rewrite !filter_cons. unfold graphTyped at 1.
  destruct (decide (type n = Some "vertex")) as [Hv|Hv].
  - rewrite decide_False by congruence. rewrite decide_True by (by left).
    simpl. by rewrite IH.
  - destruct (decide (type n = Some "edge")) as [He|He].
    + rewrite decide_True by (by right).
      rewrite <- Permutation_middle. by rewrite IH.
    + rewrite decide_False by (intros [?|?]; done). exact IH.
Qed.

(** X1. [splitVerticesAndEdges] partitions the records that are typed
    "vertex" or "edge": both results keep the order of the input, no record
    is in both, and together they are exactly the graph-typed records; every
    other record is in neither. *)
Theorem split_partitions nodes :
  let vertices := fst (splitVerticesAndEdges nodes) in
  let edges := snd (splitVerticesAndEdges nodes) in
  vertices `sublist_of` nodes ∧ edges `sublist_of` nodes ∧
  (∀ n, n ∈ vertices ↔ n ∈ nodes ∧ type n = Some "vertex") ∧
  (∀ n, n ∈ edges ↔ n ∈ nodes ∧ type n = Some "edge") ∧
  (∀ n, n ∈ vertices → n ∉ edges) ∧
  vertices ++ edges ≡ₚ filter graphTyped nodes.
Proof.
  cbn zeta. unfold splitVerticesAndEdges. cbn [fst snd].
  split; [apply sublist_filter|]. split; [apply sublist_filter|].
  split; [intros n; rewrite list_elem_of_filter; prop_solve|].
  split; [intros n; rewrite list_elem_of_filter; prop_solve|].
  split; [|apply splitVerticesAndEdges_perm].
  intros n Hv He. apply list_elem_of_filter in Hv as [Hv _].
  apply list_elem_of_filter in He as [He _]. congruence.
Qed.

Lemma indexNodes_last_gen (nodes : list ForceNode) (m : gmap (option string) ForceNode) k :
  foldl (λ m n, <[id (vertex n) := n]> m) m nodes !! k
  = match lastWithId k nodes with Some n => Some n | None => m !! k end.
Proof.
  revert m. induction nodes as [|n nodes IH]; intros m; [done|].
  simpl. rewrite IH. unfold lastWithId. rewrite filter_cons.
  destruct (decide (id (vertex n) = k)) as [Heq|Hne].
  - rewrite last_cons. destruct (last (filter _ nodes)); [done|].
    rewrite Heq. apply lookup_insert_eq.
  - destruct (last (filter _ nodes)); [done|]. by apply lookup_insert_ne.
Qed.

Lemma indexNodes_last nodes k : indexNodes nodes !! k = lastWithId k nodes.
Proof.
  unfold indexNodes. rewrite indexNodes_last_gen.
  destruct (lastWithId k nodes); [done|apply lookup_empty].
Qed.

(** X2. Every rendered link joins two rendered nodes whose vertex ids are the
    edge's [inV] and [outV]; when several of the rendered nodes carry that
    id, the link is attached to the last of them (a later [Map.set]
    overwrites an earlier one). *)
Theorem links_join_last_node_with_id vertices edges w :
  let w' := exec (displayGraph None vertices edges) w in
  ∀ l, l ∈ renderedLinks w' →
    (source l ∈ renderedNodes w' ∧ id (vertex (source l)) = inV (edge l) ∧
     target l ∈ renderedNodes w' ∧ id (vertex (target l)) = outV (edge l)) ∧
    lastWithId (inV (edge l)) (renderedNodes w') = Some (source l) ∧
    lastWithId (outV (edge l)) (renderedNodes w') = Some (target l).
Proof.
  cbn zeta. rewrite displayGraph_renderedLinks, displayGraph_renderedNodes.
  intros l Hl. split; [by apply graphLinks_endpoints in Hl|].
  unfold graphLinks, graphNodes in *. apply subseteq_take in Hl.
  rewrite makeLinks_omap in Hl. apply list_elem_of_omap in Hl as (e & _ & He).
  unfold linkOf in He. rewrite !indexNodes_last in He.
  destruct (lastWithId (inV e) (makeNodes vertices)) as [s|] eqn:Hs; [|done].
  destruct (lastWithId (outV e) (makeNodes vertices)) as [t|] eqn:Ht; [|done].
  by simplify_eq.
Qed.

(** X3. A complete [displayGraph] leaves on screen exactly the drawing of
    this call, whatever was there before: first a line for each of its
    links (the first 1000 resolvable edges), then a label for each of its
    nodes (the first 300 vertices), then a circle for each node, so circles
    are on top; nothing drawn earlier remains. *)
Theorem drawing_order vertices edges w :
  let w' := exec (displayGraph None vertices edges) w in
  let nodes := (λ v, {| vertex := v |}) <$> take maxNodes vertices in
  let links := take maxEdges (makeLinks (indexNodes nodes) edges) in
  svgElems w' = (Line <$> links) ++ (Text <$> nodes) ++ (Circle <$> nodes) ∧
  graphElems w' = svgElems w' ∧
  renderedLinks w' = links ∧
  renderedLabels w' = nodes ∧
  renderedNodes w' = nodes ∧
  edge <$> links = take maxEdges (filter (resolvable vertices) edges) ∧
  ∀ w0, svgElems (exec (displayGraph None vertices edges) w0) = svgElems w'.
Proof.
  cbn zeta. unfold graphElems.
  rewrite displayGraph_renderedLinks, displayGraph_renderedNodes,
    displayGraph_renderedLabels, displayGraph_svgElems, filter_graph_class.
  repeat split; try reflexivity.
  - apply graphLinks_edges.
  - intros w0. by rewrite displayGraph_svgElems.
Qed.

(** ** Further properties: invariants of runs *)

Lemma setState_class_valid (state : State) :
  (let fullState := "state-" +:+ State_name state in
   match state with
   | GraphResults | JsonResults => fullState +:+ " state-results"
   | _ => fullState
   end) ∈ stateClasses.
Proof.
  unfold stateClasses.
  destruct state; vm_compute; repeat constructor.
Qed.

Lemma stable_emitToHost I m :
  Stable I → queryIds [m] = [] → keeps I (emitToHost m).
Proof.
  intros HI Hm w Hw. unfold emitToHost, logToUI, modify, mbind, Js_bind. cbn.
  apply st_emit; [done..|]. by apply st_console.
Qed.

Lemma stable_log I s : Stable I → keeps I (log s).
Proof.
  intros HI. unfold log. apply keeps_bind; [by apply stable_emitToHost|intros _].
  unfold logToUI. apply keeps_modify. intros w Hw. by apply st_console.
Qed.

Lemma stable_setState I state : Stable I → keeps I (_setState state).
Proof.
  intros HI. unfold _setState. apply keeps_modify. intros w Hw.
  apply st_class; [done| |done]. apply setState_class_valid.
Qed.

Lemma stable_clearGraph I : Stable I → keeps I (clearGraph None).
Proof. intros HI w Hw. exact (st_clear I HI w Hw). Qed.

Lemma stable_setStateQuerying I : Stable I → keeps I setStateQuerying.
Proof.
  intros HI. unfold setStateQuerying.
  apply keeps_bind; [by apply stable_setState|intros _]. by apply stable_clearGraph.
Qed.

Lemma stable_setStateError I error : Stable I → keeps I (setStateError error).
Proof.
  intros HI. unfold setStateError. cbn zeta.
  apply keeps_bind; [apply keeps_modify; intros w Hw; by apply st_error|intros _].
  apply keeps_bind; [by apply stable_setState|intros _]. by apply stable_clearGraph.
Qed.

Lemma stable_showResults I fault queryResults edgeResults :
  Stable I → keeps I (showResults fault queryResults edgeResults).
Proof.
  intros HI. unfold showResults, splitVerticesAndEdges, setStateResults.
  apply keeps_bind; [apply keeps_modify; intros w Hw; by apply st_json|intros _].
  apply keeps_bind; [apply keeps_modify; intros w Hw; by apply st_console|intros _].
  case_decide; [by apply stable_setState|].
  apply keeps_bind; [by apply stable_setState|intros _]. by apply st_display.
Qed.

Lemma stable_select I :
  Stable I → keeps I selectGraphView ∧ keeps I selectJsonView.
Proof.
  intros HI. split; intros w Hw;
    unfold selectGraphView, selectJsonView, setView, emitToHost, logToUI,
      gets, modify, mbind, Js_bind; cbn;
    (apply st_emit; [done..|]); (apply st_console; [done|]); by apply st_view.
Qed.

Lemma stable_handler I ev :
  Stable I → adoptsQueryId ev = false → keeps I (handler ev).
Proof.
  intros HI Hev. destruct ev; unfold handler.
  - unfold onConnect. apply keeps_bind; [by apply stable_log|intros _].
    apply keeps_modify. intros w Hw. by apply st_emit.
  - by apply stable_log.
  - unfold onSetPageState. simpl in Hev. rewrite Hev.
    apply keeps_bind; [apply keeps_modify; intros w Hw; by apply st_input|intros _].
    apply keeps_bind.
    + destruct (PageState.errorMessage pageState) as [[|??]|];
        first [by apply stable_showResults | by apply stable_setStateError].
    + intros _. destruct (PageState.view pageState); by apply stable_select.
  - unfold onSetTitle. apply keeps_bind; [by apply stable_log|intros _].
    apply keeps_modify. intros w Hw. by apply st_title.
  - unfold onShowResults. apply keeps_bind; [by apply stable_log|intros _].
    apply keeps_bind; [apply keeps_gets|intros cur].
    case_decide; [by apply stable_log | by apply stable_showResults].
  - unfold onShowQueryError. apply keeps_bind; [by apply stable_log|intros _].
    apply keeps_bind; [apply keeps_gets|intros cur].
    case_decide; [by apply stable_log | by apply stable_setStateError].
  - by apply stable_emitToHost.
  - by apply st_query.
  - by apply stable_select.
  - by apply stable_select.
  - by apply stable_emitToHost.
Qed.

Lemma stable_handler_adopting I ev :
  Stable I → (∀ z w, I w → I (with_this (set_currentQueryId z) w)) →
  keeps I (handler ev).
Proof.
  intros HI Hid. destruct (adoptsQueryId ev) eqn:Hev; [|by apply stable_handler].
  destruct ev; try discriminate Hev. unfold handler, onSetPageState.
  simpl in Hev. rewrite Hev.
  apply keeps_bind; [apply keeps_modify; intros w Hw; by apply st_input|intros _].
  apply keeps_bind; [apply keeps_modify; intros w Hw; by apply Hid|intros _].
  by apply stable_setStateQuerying.
Qed.

Lemma stable_dispatch I w ev :
  Stable I → keeps I (handler ev) → I w → I (dispatch w ev).
Proof.
  intros HI Hh Hw. unfold dispatch. specialize (Hh w Hw).
  destruct (handler ev w) as [w' [a|e]]; simpl in *; [done|].
  exact (st_console I HI _ w' Hh).
Qed.

Lemma stable_run I evs w :
  Stable I → (∀ z w, I w → I (with_this (set_currentQueryId z) w)) →
  I w → I (run evs w).
Proof.
  intros HI Hid. unfold run. revert w.
  induction evs as [|ev evs IH]; intros w Hw; simpl; [done|].
  apply IH, stable_dispatch; [done| |done]. by apply stable_handler_adopting.
Qed.

Lemma stable_run_not_adopting I evs w :
  Stable I → Forall (λ ev, adoptsQueryId ev = false) evs →
  I w → I (run evs w).
Proof.
  intros HI Hevs. unfold run. revert w.
  induction Hevs as [|ev evs Hev _ IH]; intros w Hw; simpl; [done|].
  apply IH, stable_dispatch; [done| |done]. by apply stable_handler.
Qed.

Lemma class_stable : Stable (λ w, states_class (dom w) ∈ stateClasses).
Proof.
  split; try (intros; assumption).
  - intros fault vertices edges w Hw.
    by rewrite (proj1 (displayGraph_frame fault vertices edges w)).
  - intros gremlin w _. exact (setState_class_valid Querying).
Qed.

(** X4. The class of the states element is always one of the five values
    state-empty, state-querying, state-error, "state-json-results
    state-results" and "state-graph-results state-results", in every world
    the client reaches, whatever the events and whichever d3 calls throw. *)
Theorem state_class_valid page evs :
  states_class (dom (run evs (constructor page))) ∈ stateClasses.
Proof.
  apply (stable_run (λ w, states_class (dom w) ∈ stateClasses));
    [apply class_stable | by intros | ].
  exact (setState_class_valid Empty).
Qed.

Lemma viewSynced_stable : Stable viewSynced.
Proof.
  split; try (intros; assumption).
  - intros fault vertices edges w Hw. unfold viewSynced in *.
    pose proof (displayGraph_frame fault vertices edges w) as H. cbn zeta in H.
    destruct H as (_ & _ & _ & _ & _ & -> & -> & -> & -> & _ & ->). exact Hw.
  - intros b w _. by repeat split.
  - intros gremlin w Hw. exact Hw.
Qed.

(** X5. Selecting a view puts the radio buttons and the sections in
    agreement with [_graphView] (exactly one of the two views checked and
    active), and no later event breaks the agreement. *)
Theorem view_controls_synced :
  (∀ w, viewSynced (exec selectGraphView w) ∧ _graphView (this (exec selectGraphView w)) = true) ∧
  (∀ w, viewSynced (exec selectJsonView w) ∧ _graphView (this (exec selectJsonView w)) = false) ∧
  (∀ w evs, viewSynced w →
     viewSynced (run evs w) ∧
     graphRadio_checked (dom (run evs w)) = negb (jsonRadio_checked (dom (run evs w))) ∧
     graphSection_active (dom (run evs w)) = negb (jsonSection_active (dom (run evs w)))).
Proof.
  split; [by intros w|]. split; [by intros w|].
  intros w evs Hw.
  assert (H : viewSynced (run evs w))
    by (apply stable_run; [apply viewSynced_stable | by intros | done]).
  split; [done|]. destruct H as (-> & -> & -> & ->).
  by rewrite negb_involutive.
Qed.

Lemma displayGraph_groups fault vertices edges w :
  (length (graphSection_svg (dom w))
   ≤ length (graphSection_svg (dom (fst (displayGraph fault vertices edges w)))))%nat.
Proof.
  fault_cases fault w;
    rewrite ?length_alter, ?length_app, ?removeGraphElems_length; simpl; lia.
Qed.

Lemma groups_stable n :
  Stable (λ w, (n ≤ length (graphSection_svg (dom w)))%nat).
Proof.
  split; try (intros; assumption).
  - intros w Hw.
    change (n ≤ length (removeGraphElems (graphSection_svg (dom w))))%nat.
    by rewrite removeGraphElems_length.
  - intros fault vertices edges w Hw.
    pose proof (displayGraph_groups fault vertices edges w). lia.
  - intros gremlin w Hw.
    change (n ≤ length (removeGraphElems (graphSection_svg (dom w))))%nat.
    by rewrite removeGraphElems_length.
Qed.

(** X6. The [<g>] groups under the svg only accumulate: [clearGraph] empties
    groups but removes none, a complete [displayGraph] appends exactly one,
    and over any sequence of events their number never decreases. *)
Theorem groups_accumulate :
  (∀ w, length (graphSection_svg (dom (exec (clearGraph None) w)))
        = length (graphSection_svg (dom w))) ∧
  (∀ vertices edges w,
     length (graphSection_svg (dom (exec (displayGraph None vertices edges) w)))
     = S (length (graphSection_svg (dom w)))) ∧
  (∀ w evs, (length (graphSection_svg (dom w))
             ≤ length (graphSection_svg (dom (run evs w))))%nat).
Proof.
  split; [intros w; apply removeGraphElems_length|]. split.
  - intros vertices edges w. unfold exec. rewrite displayGraph_None. cbn.
    rewrite length_app, removeGraphElems_length. simpl. lia.
  - intros w evs.
    apply (stable_run (λ w0, (length (graphSection_svg (dom w)) ≤
                               length (graphSection_svg (dom w0)))%nat));
      [apply groups_stable | by intros | done].
Qed.

Lemma queryIds_snoc msgs m : queryIds (msgs ++ [m]) = queryIds msgs ++ queryIds [m].
Proof. unfold queryIds. apply omap_app. Qed.

Lemma seqZ_snoc (n : Z) : 0 ≤ n → seqZ 1 (n + 1) = seqZ 1 n ++ [n + 1].
Proof.
  intros Hn. rewrite seqZ_app by lia. f_equal.
  replace (1 + n) with (n + 1) by lia. reflexivity.
Qed.

Lemma js_increment_exact n :
  - maxExactInteger ≤ n + 1 ≤ maxExactInteger → js_increment n = n + 1.
Proof.
  intros Hn. unfold js_increment, roundToDouble.
  destruct (Z.leb_spec (Z.abs (n + 1)) maxExactInteger); [done|lia].
Qed.

Lemma js_increment_large n :
  maxExactInteger ≤ n → maxExactInteger ≤ js_increment n.
Proof.
  intros Hn. unfold js_increment, roundToDouble.
  destruct (Z.leb_spec (Z.abs (n + 1)) maxExactInteger) as [Hle|Hgt];
    [unfold maxExactInteger in *; lia|].
  assert (Hpos : 0 < n + 1) by (unfold maxExactInteger in *; lia).
  rewrite Z.abs_eq, Z.sgn_pos by lia.
  set (e := Z.log2 (n + 1)).
  assert (He : 53 ≤ e).
  { unfold e. rewrite <- (Z.log2_pow2 53) by lia.
    apply Z.log2_le_mono. unfold maxExactInteger in *. lia. }
  destruct (Z.log2_spec (n + 1) Hpos) as [Hlow _]. fold e in Hlow.
  set (ulp := 2 ^ (e - 52)).
  assert (Hulp : 0 < ulp) by (apply Z.pow_pos_nonneg; lia).
  assert (Hsplit : 2 ^ e = 2 ^ 52 * ulp).
  { unfold ulp. rewrite <- Z.pow_add_r by lia. f_equal. lia. }
  assert (Hq : 2 ^ 52 ≤ (n + 1) / ulp).
  { apply Z.div_le_lower_bound; [done|]. rewrite Z.mul_comm, <- Hsplit. done. }
  assert (Hbig : maxExactInteger ≤ 2 ^ e)
    by (unfold maxExactInteger; apply Z.pow_le_mono_r; lia).
  assert (Hstep : ∀ q', (n + 1) / ulp ≤ q' → maxExactInteger ≤ 1 * (q' * ulp)).
  { intros q' Hq'. rewrite Z.mul_1_l.
    assert (2 ^ 52 * ulp ≤ q' * ulp) by (apply Z.mul_le_mono_nonneg_r; lia).
    lia. }
  destruct (2 * ((n + 1) mod ulp) <? ulp); [apply Hstep; lia|].
  destruct (ulp <? 2 * ((n + 1) mod ulp)); [apply Hstep; lia|].
  destruct (Z.even ((n + 1) / ulp)); apply Hstep; lia.
Qed.

Lemma queryIds_stable :
  Stable (λ w, 0 ≤ _currentQueryId (this w) ∧
               (_currentQueryId (this w) < maxExactInteger →
                queryIds (emitted w) = seqZ 1 (_currentQueryId (this w)))).
Proof.
  split; try (intros; assumption).
  - intros m w Hm [H1 H2]. split; [done|]. intros Hlt.
    change (queryIds (emitted w ++ [m]) = seqZ 1 (_currentQueryId (this w))).
    rewrite queryIds_snoc, Hm, app_nil_r. by apply H2.
  - intros fault vertices edges w [H1 H2].
    pose proof (displayGraph_log fault vertices edges w) as H. cbn zeta in H.
    pose proof (displayGraph_frame fault vertices edges w) as Hf. cbn zeta in Hf.
    destruct Hf as (_ & _ & _ & _ & _ & _ & _ & _ & _ & -> & _).
    split; [done|]. intros Hlt.
    destruct (caught fault w); destruct H as [-> _]; [|by apply H2].
    rewrite queryIds_snoc, app_nil_r. by apply H2.
  - intros gremlin w [H1 H2].
    change (0 ≤ js_increment (_currentQueryId (this w)) ∧
            (js_increment (_currentQueryId (this w)) < maxExactInteger →
             queryIds (emitted w ++ [MsgQuery (js_increment (_currentQueryId (this w)))
                                       gremlin])
             = seqZ 1 (js_increment (_currentQueryId (this w))))).
    destruct (decide (_currentQueryId (this w) < maxExactInteger)) as [Hlt|Hge].
    + rewrite js_increment_exact by (unfold maxExactInteger in *; lia).
      split; [lia|]. intros _.
      rewrite queryIds_snoc, (H2 Hlt), seqZ_snoc by done. reflexivity.
    + pose proof (js_increment_large (_currentQueryId (this w))).
      split; unfold maxExactInteger in *; lia.
Qed.

(** X8. As long as the host does not make the client adopt a running query
    id through [setPageState], and as long as the current query id is below
    2^53 (where [+= 1] on a number is still exact), the queries of a session
    are sent with the ids 1, 2, 3, ... in this order: the ids of the [query]
    messages emitted so far are exactly 1 up to the current query id, so no
    id is used twice. *)
Theorem query_ids_consecutive page evs :
  Forall (λ ev, adoptsQueryId ev = false) evs →
  let w := run evs (constructor page) in
  _currentQueryId (this w) < maxExactInteger →
  queryIds (emitted w) = seqZ 1 (_currentQueryId (this w)) ∧
  NoDup (queryIds (emitted w)).
Proof.
  intros Hevs. cbn zeta. intros Hlt.
  assert (H : 0 ≤ _currentQueryId (this (run evs (constructor page))) ∧
              (_currentQueryId (this (run evs (constructor page))) < maxExactInteger →
               queryIds (emitted (run evs (constructor page)))
               = seqZ 1 (_currentQueryId (this (run evs (constructor page)))))).
  { apply (stable_run_not_adopting
             (λ w, 0 ≤ _currentQueryId (this w) ∧
                   (_currentQueryId (this w) < maxExactInteger →
                    queryIds (emitted w) = seqZ 1 (_currentQueryId (this w)))));
      [apply queryIds_stable | done | by split]. }
  destruct H as [_ H]. specialize (H Hlt). split; [done|]. rewrite H. apply NoDup_seqZ.
Qed.

Lemma stale_dispatch w ev :
  staleReply (_currentQueryId (this w)) ev →
  dom (dispatch w ev) = dom w ∧ this (dispatch w ev) = this w ∧
  forces (dispatch w ev) = forces w.
Proof.
  intros Hstale. destruct ev; try done; simpl in Hstale;
    unfold dispatch, handler, onShowResults, onShowQueryError;
    js_unfold; cbn; rewrite decide_True by done; cbn; done.
Qed.

(** X9. Replies that are all stale leave the display alone, however many
    arrive and in whatever order: after any sequence of [showResults] and
    [showQueryError] messages whose ids differ from the current query id,
    the page, the client's fields and the force layouts are as before. *)
Theorem stale_replies_ignored evs w :
  Forall (staleReply (_currentQueryId (this w))) evs →
  dom (run evs w) = dom w ∧ this (run evs w) = this w ∧ forces (run evs w) = forces w.
Proof.
  unfold run. revert w. induction evs as [|ev evs IH]; intros w Hevs; [done|].
  apply Forall_cons in Hevs as [Hev Hevs]. simpl.
  destruct (stale_dispatch w ev Hev) as (Hd & Ht & Hf).
  rewrite <- Ht in Hevs. destruct (IH _ Hevs) as (-> & -> & ->). done.
Qed.

Lemma stale_reply_dom fault queryId queryResults edgeResults error w :
  queryId ≠ _currentQueryId (this w) →
  dom (exec (onShowResults fault queryId queryResults edgeResults) w) = dom w ∧
  dom (exec (onShowQueryError queryId error) w) = dom w.
Proof.
  intros Hne. unfold onShowResults, onShowQueryError. js_unfold. cbn.
  repeat (rewrite decide_True by done; cbn). done.
Qed.

(** X10. While the current query id is below 2^53 (and not below -2^53),
    [query] moves the client to the next query id, sends that id with the
    query text to the host, enters the querying state and clears the graph,
    leaving the JSON text, the error text and the stats line; from then on a
    reply to the query that was current before is dropped.  At 2^53 the
    increment is lost in rounding: [query] sends the same id again, and a
    reply to the query that was current before is still accepted. *)
Theorem query_supersedes gremlin fault queryResults edgeResults error w :
  let previous := _currentQueryId (this w) in
  let w1 := exec (query gremlin) w in
  (last (emitted w1) = Some (MsgQuery (_currentQueryId (this w1)) gremlin) ∧
   states_class (dom w1) = "state-querying" ∧
   graphElems w1 = [] ∧
   (jsonResults_value (dom w1) = jsonResults_value (dom w) ∧
    queryError_value (dom w1) = queryError_value (dom w) ∧
    stats_text (dom w1) = stats_text (dom w))) ∧
  (- maxExactInteger ≤ previous < maxExactInteger →
   _currentQueryId (this w1) = previous + 1 ∧
   dom (exec (onShowResults fault previous queryResults edgeResults) w1) = dom w1 ∧
   dom (exec (onShowQueryError previous error) w1) = dom w1) ∧
  (previous = maxExactInteger →
   _currentQueryId (this w1) = previous ∧
   queryError_value (dom (exec (onShowQueryError previous error) w1)) = error ∧
   states_class (dom (exec (onShowQueryError previous error) w1)) = "state-error").
Proof.
  cbn zeta. split; [|split].
  - split; [apply last_snoc|].
    split; [reflexivity|]. split; [by eapply graphElems_removed|]. by repeat split.
  - intros Hrange.
    assert (Hid : _currentQueryId (this (exec (query gremlin) w))
                  = _currentQueryId (this w) + 1).
    { change (js_increment (_currentQueryId (this w)) = _currentQueryId (this w) + 1).
      apply js_increment_exact. unfold maxExactInteger in *. lia. }
    split; [exact Hid|]. apply stale_reply_dom. rewrite Hid. lia.
  - intros Hmax.
    assert (Hid : _currentQueryId (this (exec (query gremlin) w))
                  = _currentQueryId (this w)).
    { change (js_increment (_currentQueryId (this w)) = _currentQueryId (this w)).
      rewrite Hmax. vm_compute. reflexivity. }
    split; [exact Hid|].
    unfold onShowQueryError, log, emitToHost, logToUI, setStateError, _setState,
      clearGraph, d3, throws, gets, modify, exec, mbind, Js_bind.
    cbn. rewrite decide_False by (intros H; apply H; symmetry; exact Hid).
    by split.
Qed.

Lemma showResults_frame fault queryResults edgeResults w :
  let w' := fst (showResults fault queryResults edgeResults w) in
  queryError_value (dom w') = queryError_value (dom w) ∧
  queryInput_value (dom w') = queryInput_value (dom w) ∧
  _currentQueryId (this w') = _currentQueryId (this w) ∧
  _graphView (this w') = _graphView (this w).
Proof.
  cbn zeta.
  destruct (decide (filter (λ n, type n = Some "vertex") queryResults = [])) as [Hv|Hv].
  - by rewrite showResults_no_vertices.
  - rewrite showResults_with_vertices by done.
    match goal with |- context [displayGraph ?f ?v ?e ?w0] =>
      pose proof (displayGraph_frame f v e w0) as H
    end.
    cbn zeta in H. destruct H as (_ & _ & -> & -> & _ & _ & _ & _ & _ & -> & ->).
    done.
Qed.

(** X11. A page state with a running query makes the client adopt the
    host's query id and wait: the query text is shown, the state is querying
    and the graph is cleared, but nothing is sent to the host, the view
    selection is not applied, and results or an error message carried by the
    page state are not shown.  A later error reply with the adopted id is
    accepted. *)
Theorem running_page_state_adopts_id fault pageState error w :
  PageState.isQueryRunning pageState = true →
  let w1 := exec (onSetPageState fault pageState) w in
  _currentQueryId (this w1) = PageState.runningQueryId pageState ∧
  queryInput_value (dom w1) = PageState.query pageState ∧
  states_class (dom w1) = "state-querying" ∧
  graphElems w1 = [] ∧
  (emitted w1 = emitted w ∧ console w1 = console w) ∧
  (_graphView (this w1) = _graphView (this w) ∧
   graphRadio_checked (dom w1) = graphRadio_checked (dom w) ∧
   jsonRadio_checked (dom w1) = jsonRadio_checked (dom w)) ∧
  (jsonResults_value (dom w1) = jsonResults_value (dom w) ∧
   queryError_value (dom w1) = queryError_value (dom w)) ∧
  queryError_value
    (dom (exec (onShowQueryError (PageState.runningQueryId pageState) error) w1)) = error.
Proof.
  intros Hrun. cbn zeta. unfold onSetPageState. rewrite Hrun.
  split; [reflexivity|]. split; [reflexivity|]. split; [reflexivity|].
  split; [by eapply graphElems_removed|].
  split; [by split|]. split; [by repeat split|]. split; [by split|].
  unfold onShowQueryError. js_unfold. cbn.
  rewrite decide_False by (intros H; by apply H). reflexivity.
Qed.

(** X12. A page state without a running query ends with its view applied,
    whether it carried results or an error and whether rendering threw:
    [_graphView] is the page state's view, the radio buttons and sections
    agree with it, the query text is shown and the last message sent to the
    host is [setView] with that view.  The current query id is kept. *)
Theorem idle_page_state_applies_view fault pageState w :
  PageState.isQueryRunning pageState = false →
  let w1 := exec (onSetPageState fault pageState) w in
  _graphView (this w1)
  = match PageState.view pageState with GraphView => true | JsonView => false end ∧
  viewSynced w1 ∧
  last (emitted w1) = Some (MsgSetView (PageState.view pageState)) ∧
  queryInput_value (dom w1) = PageState.query pageState ∧
  _currentQueryId (this w1) = _currentQueryId (this w).
Proof.
  intros Hrun. cbn zeta. unfold exec, onSetPageState. rewrite Hrun.
  unfold modify, mbind, Js_bind. cbn.
  destruct (PageState.errorMessage pageState) as [[|a m]|].
  1,3: match goal with |- context [showResults ?f ?q ?e ?w0] =>
         pose proof (showResults_completes f q e w0) as Hn;
         pose proof (showResults_frame f q e w0) as Hf;
         destruct (showResults f q e w0) as [w1 [[]|?]]; [|done]
       end;
       cbn zeta in Hf; cbn in Hf; destruct Hf as (_ & Hi & Hc & _);
       destruct (PageState.view pageState); js_unfold; cbn;
       (split; [reflexivity|]); (split; [by repeat split|]);
       (split; [apply last_snoc|]); by split.
  destruct (PageState.view pageState); js_unfold; cbn;
    (split; [reflexivity|]); (split; [by repeat split|]);
    (split; [apply last_snoc|]); by split.
Qed.

(** X13. An error is shown the same way on both paths, an error reply with
    the current query id and a page state carrying a non-empty error
    message: the state is error, the error text is the message, the graph
    elements are removed, and the JSON text, the stats line and the force
    layouts of the previous results stay.  An empty error message in a page
    state counts as no error: the page state is handled as if it had none. *)
Theorem error_shown fault error w :
  (let w1 := exec (onShowQueryError (_currentQueryId (this w)) error) w in
   states_class (dom w1) = "state-error" ∧ queryError_value (dom w1) = error ∧
   graphElems w1 = [] ∧
   jsonResults_value (dom w1) = jsonResults_value (dom w) ∧
   stats_text (dom w1) = stats_text (dom w) ∧
   forces w1 = forces w ∧ this w1 = this w) ∧
  (∀ queryResults edgeResults runningQueryId query view,
     error ≠ "" →
     let w2 := exec (onSetPageState fault
                       {| PageState.queryResults := queryResults;
                          PageState.edgeResults := edgeResults;
                          PageState.isQueryRunning := false;
                          PageState.runningQueryId := runningQueryId;
                          PageState.errorMessage := Some error;
                          PageState.query := query;
                          PageState.view := view |}) w in
     states_class (dom w2) = "state-error" ∧ queryError_value (dom w2) = error ∧
     graphElems w2 = [] ∧
     jsonResults_value (dom w2) = jsonResults_value (dom w) ∧
     stats_text (dom w2) = stats_text (dom w) ∧
     forces w2 = forces w) ∧
  (∀ queryResults edgeResults runningQueryId query view,
     onSetPageState fault
       {| PageState.queryResults := queryResults;
          PageState.edgeResults := edgeResults;
          PageState.isQueryRunning := false;
          PageState.runningQueryId := runningQueryId;
          PageState.errorMessage := Some "";
          PageState.query := query;
          PageState.view := view |} w
     = onSetPageState fault
         {| PageState.queryResults := queryResults;
            PageState.edgeResults := edgeResults;
            PageState.isQueryRunning := false;
            PageState.runningQueryId := runningQueryId;
            PageState.errorMessage := None;
            PageState.query := query;
            PageState.view := view |} w).
Proof.
  split; [|split].
  - cbn zeta. unfold onShowQueryError. js_unfold. cbn.
    rewrite decide_False by (intros H; by apply H).
    repeat split; try reflexivity. by eapply graphElems_removed.
  - intros queryResults edgeResults runningQueryId query view Hne. cbn zeta.
    destruct error as [|a m]; [done|].
    destruct view; unfold onSetPageState; js_unfold; cbn;
      repeat split; try reflexivity; by eapply graphElems_removed.
  - reflexivity.
Qed.

(** X14. With at least one vertex in the result set, [showResults] enters
    the graph-results state and shows the JSON text before it renders, so
    both hold whichever d3 call of the rendering throws, and [showResults]
    completes normally all the same. *)
Theorem results_state_set_before_render fault queryResults edgeResults w :
  filter (λ n, type n = Some "vertex") queryResults ≠ [] →
  let w' := exec (showResults fault queryResults edgeResults) w in
  states_class (dom w') = "state-graph-results state-results" ∧
  jsonResults_value (dom w') = JSON_stringify queryResults ∧
  outcome (showResults fault queryResults edgeResults) w = Normal ().
Proof.
  intros Hv. cbn zeta. split; [|split].
  - unfold exec. rewrite showResults_with_vertices by done.
    by rewrite (proj1 (displayGraph_frame _ _ _ _)).
  - apply showResults_json.
  - apply showResults_completes.
Qed.

End GraphClient.

(** ** Closed examples *)

(** The client has issued six queries and shown the results of the sixth;
    an error reply for query 5 then changes nothing on the page. *)
Lemma stale_reply_discarded_example :
  let w := run 3000 sampleStringify
             [CallQuery "g.V()"; CallQuery "g.V()"; CallQuery "g.V()";
              CallQuery "g.V()"; CallQuery "g.V()"; CallQuery "g.E()";
              ShowResults None 6 [sampleVertex "a"] []]
             (constructor 3000 samplePage) in
  5 ≠ _currentQueryId (this w) ∧
  dom (exec (onShowQueryError 5 "boom") w) = dom w ∧
  dom (exec (onShowResults sampleStringify None 5 [sampleVertex "b"] []) w) = dom w.
Proof.
  cbn zeta.
  assert (H : 5 ≠ _currentQueryId (this (run 3000 sampleStringify
             [CallQuery "g.V()"; CallQuery "g.V()"; CallQuery "g.V()";
              CallQuery "g.V()"; CallQuery "g.V()"; CallQuery "g.E()";
              ShowResults None 6 [sampleVertex "a"] []]
             (constructor 3000 samplePage)))) by (vm_compute; lia).
  split; [exact H|].
  destruct (stale_reply_discarded sampleStringify None 5 [sampleVertex "b"] [] "boom" _ H)
    as [(H1 & _) (H2 & _)].
  split; [exact H2 | exact H1].
Defined.

(** Of 301 vertices the last is cut by the node cap; an edge to it is
    dropped. *)
Lemma dangling_edge_dropped_example :
  let vertices := (λ i : nat, sampleVertex (pretty i)) <$> seq 0 301 in
  let e := sampleEdge "e" "0" "300" in
  let w' := exec (displayGraph None vertices [e]) (constructor 3000 samplePage) in
  e ∈ [e] ∧
  ((¬ survives vertices (inV e)) ∨ (¬ survives vertices (outV e))) ∧
  (e ∉ (edge <$> renderedLinks w')) ∧
  length (renderedNodes w') = 300%nat.
Proof.
  cbn zeta.
  assert (H1 : sampleEdge "e" "0" "300" ∈ [sampleEdge "e" "0" "300"]) by left.
  assert (H2 : (¬ survives ((λ i : nat, sampleVertex (pretty i)) <$> seq 0 301)
                   (inV (sampleEdge "e" "0" "300"))) ∨
               (¬ survives ((λ i : nat, sampleVertex (pretty i)) <$> seq 0 301)
                   (outV (sampleEdge "e" "0" "300")))).
  { right. apply (bool_decide_eq_false_1 (survives _ _)). vm_compute. reflexivity. }
  split; [exact H1|]. split; [exact H2|].
  split.
  - exact (proj1 (dangling_edge_dropped _ _ _ (constructor 3000 samplePage) H1 H2)).
  - rewrite displayGraph_renderedNodes, graphNodes_length. vm_compute. reflexivity.
Defined.

(** A result set of two projections shows as JSON, also when the page state
    asks for the graph view. *)
Lemma no_vertices_json_only_example :
  let queryResults := [sampleOther "x"; sampleOther "y"] in
  let w := constructor 3000 samplePage in
  filter (λ n, type n = Some "vertex") queryResults = [] ∧
  states_class
    (dom (exec (onSetPageState sampleStringify None
                  {| PageState.queryResults := queryResults;
                     PageState.edgeResults := [];
                     PageState.isQueryRunning := false;
                     PageState.runningQueryId := 0;
                     PageState.errorMessage := None;
                     PageState.query := "g.V().count()";
                     PageState.view := GraphView |}) w))
  = "state-json-results state-results".
Proof.
  cbn zeta.
  assert (H : filter (λ n, type n = Some "vertex") [sampleOther "x"; sampleOther "y"] = [])
    by reflexivity.
  split; [exact H|].
  destruct (no_vertices_json_only sampleStringify None _ [] (constructor 3000 samplePage) H)
    as (_ & _ & H3).
  exact (proj1 (H3 0 None "g.V().count()" GraphView (or_introl eq_refl))).
Defined.

(** The two stats lines of the specification. *)
Lemma stats_line_example :
  let two := [sampleVertex "a"; sampleVertex "b"] in
  let e1 := sampleEdge "e1" "a" "b" in
  let many := replicate 350 (sampleVertex "v") in
  let w := constructor 3000 samplePage in
  (length two = 2%nat ∧ length [e1] = 1%nat ∧ Forall (resolvable two) [e1]) ∧
  stats_text (dom (exec (displayGraph None two [e1]) w))
  = "Displaying all 2 vertices and 1 edges" ∧
  (length many = 350%nat ∧ length (@nil ResultNode) = 0%nat) ∧
  stats_text (dom (exec (displayGraph None many []) w))
  = "Displaying 300 of 350 vertices and 0 of 0 edges".
Proof.
  cbn zeta.
  assert (Hres : Forall (resolvable [sampleVertex "a"; sampleVertex "b"])
                   [sampleEdge "e1" "a" "b"]).
  { apply Forall_cons. split; [|apply Forall_nil_2].
    split; apply (bool_decide_eq_true_1 (survives _ _)); vm_compute; reflexivity. }
  assert (Hlen : length (replicate 350 (sampleVertex "v")) = 350%nat)
    by apply length_replicate.
  split; [split; [reflexivity|split; [reflexivity|exact Hres]]|].
  split.
  - exact (proj1 (proj2 (proj2 (stats_line [sampleVertex "a"; sampleVertex "b"]
                                   [sampleEdge "e1" "a" "b"]
                                   (constructor 3000 samplePage))))
             eq_refl eq_refl Hres).
  - split; [split; [exact Hlen|reflexivity]|].
    exact (proj2 (proj2 (proj2 (stats_line (replicate 350 (sampleVertex "v")) []
                                  (constructor 3000 samplePage))))
             Hlen eq_refl).
Defined.

(** A new query after a rendered graph: the state is querying and no graph
    element is left. *)
Lemma clearGraph_on_querying_and_error_example :
  let w := run 3000 sampleStringify
             [CallQuery "g.V()";
              ShowResults None 1
                [sampleVertex "a"; sampleVertex "b"; sampleEdge "e1" "a" "b"] [];
              CallQuery "g.E()"]
             (constructor 3000 samplePage) in
  states_class (dom w) ∈ ["state-querying"; "state-error"] ∧ graphElems w = [].
Proof.
  cbn zeta.
  assert (H : states_class (dom (run 3000 sampleStringify
             [CallQuery "g.V()";
              ShowResults None 1
                [sampleVertex "a"; sampleVertex "b"; sampleEdge "e1" "a" "b"] [];
              CallQuery "g.E()"]
             (constructor 3000 samplePage))) ∈ ["state-querying"; "state-error"])
    by (vm_compute; left).
  split; [exact H|].
  exact (proj1 (clearGraph_on_querying_and_error 3000 sampleStringify samplePage _) H).
Defined.

(** An edge that comes both in the result set and out of band is drawn
    twice. *)
Lemma edges_concatenated_example :
  let e1 := sampleEdge "e1" "a" "b" in
  let queryResults := [sampleVertex "a"; sampleVertex "b"; e1] in
  let w := exec (query "g.V()") (constructor 3000 samplePage) in
  filter (λ n, type n = Some "vertex") queryResults ≠ [] ∧
  edge <$> renderedLinks
             (exec (onShowResults sampleStringify None (_currentQueryId (this w))
                      queryResults [e1]) w)
  = [e1; e1].
Proof.
  cbn zeta.
  assert (H : filter (λ n, type n = Some "vertex")
                [sampleVertex "a"; sampleVertex "b"; sampleEdge "e1" "a" "b"] ≠ [])
    by (vm_compute; discriminate).
  split; [exact H|].
  destruct (edges_concatenated sampleStringify None _ [sampleEdge "e1" "a" "b"]
              (exec (query "g.V()") (constructor 3000 samplePage)) H)
    as (_ & H2 & _).
  refine (eq_trans H2 _). vm_compute. reflexivity.
Defined.

(** A projection among the results is in the JSON text and not in the
    graph. *)
Lemma other_records_json_only_example :
  let r := sampleOther "x" in
  let queryResults := [sampleVertex "a"; r] in
  let w' := exec (showResults sampleStringify None queryResults [])
              (constructor 3000 samplePage) in
  (r ∈ queryResults ∧ ¬ graphTyped r ∧
   filter (λ n, type n = Some "vertex") queryResults ≠ []) ∧
  (r ∉ (vertex <$> renderedNodes w')) ∧
  jsonResults_value (dom w') = "[a,x]".
Proof.
  cbn zeta.
  assert (H1 : sampleOther "x" ∈ [sampleVertex "a"; sampleOther "x"])
    by (right; left).
  assert (H2 : ¬ graphTyped (sampleOther "x"))
    by (intros [H|H]; discriminate H).
  assert (H3 : filter (λ n, type n = Some "vertex")
                 [sampleVertex "a"; sampleOther "x"] ≠ [])
    by (vm_compute; discriminate).
  split; [split; [exact H1|split; [exact H2|exact H3]]|].
  destruct (other_records_json_only sampleStringify None
              [sampleVertex "a"; sampleOther "x"] [] (constructor 3000 samplePage))
    as (Hjson & _ & Hgraph).
  split; [exact (proj1 (Hgraph _ H1 H2 H3))|].
  refine (eq_trans Hjson _). vm_compute. reflexivity.
Defined.

(** ** Counterexamples *)

(** C7, as stated, fails: after a graph was rendered and a new query was
    issued, the state is querying and the drawn elements are gone, but the
    layout of the old graph is still the client's [_force], still holds its
    nodes and links, and still runs. *)
Lemma clearGraph_keeps_layout :
  let w := run 3000 sampleStringify
             [CallQuery "g.V()";
              ShowResults None 1
                [sampleVertex "a"; sampleVertex "b"; sampleEdge "e1" "a" "b"] [];
              CallQuery "g.E()"]
             (constructor 3000 samplePage) in
  states_class (dom w) = "state-querying" ∧
  activeForces w = [0%nat] ∧
  currentForce w
  = Some (startedSimulation [sampleVertex "a"; sampleVertex "b"]
            [sampleEdge "e1" "a" "b"]) ∧
  ¬ graph_torn_down w.
Proof.
  cbn zeta. split; [vm_compute; reflexivity|].
  split; [vm_compute; reflexivity|].
  split; [vm_compute; reflexivity|].
  intros (_ & H & _). vm_compute in H. discriminate H.
Qed.


(** ** Closed examples for the further properties *)

(** Two vertices share the id "a"; the edge from "a" is attached to the
    second of them. *)
Lemma links_join_last_node_with_id_example :
  let first := {| id := Some "a"; type := Some "vertex"; inV := None; outV := Some "1" |} in
  let second := {| id := Some "a"; type := Some "vertex"; inV := None; outV := Some "2" |} in
  let e := sampleEdge "e" "a" "b" in
  let l := {| edge := e; source := {| vertex := second |};
              target := {| vertex := sampleVertex "b" |} |} in
  let w' := exec (displayGraph None [first; second; sampleVertex "b"] [e])
              (constructor 3000 samplePage) in
  l ∈ renderedLinks w' ∧
  lastWithId (inV e) (renderedNodes w') = Some {| vertex := second |}.
Proof.
  cbn zeta.
  assert (H : {| edge := sampleEdge "e" "a" "b";
                 source := {| vertex := {| id := Some "a"; type := Some "vertex";
                                           inV := None; outV := Some "2" |} |};
                 target := {| vertex := sampleVertex "b" |} |}
              ∈ renderedLinks
                  (exec (displayGraph None
                           [{| id := Some "a"; type := Some "vertex";
                               inV := None; outV := Some "1" |};
                            {| id := Some "a"; type := Some "vertex";
                               inV := None; outV := Some "2" |};
                            sampleVertex "b"] [sampleEdge "e" "a" "b"])
                     (constructor 3000 samplePage))).
  { apply (bool_decide_eq_true_1 (_ ∈ _)). vm_compute. reflexivity. }
  split; [exact H|].
  exact (proj1 (proj2 (links_join_last_node_with_id _ _ _ _ H))).
Defined.

(** After the JSON view was selected the controls stay in agreement through
    a query, its results and a title. *)
Lemma view_controls_synced_example :
  let w := exec selectJsonView (constructor 3000 samplePage) in
  let evs := [CallQuery "g.V()"; ShowResults None 1 [sampleVertex "a"] [];
              SetTitle "graph"] in
  viewSynced w ∧
  graphRadio_checked (dom (run 3000 sampleStringify evs w))
  = negb (jsonRadio_checked (dom (run 3000 sampleStringify evs w))).
Proof.
  cbn zeta.
  assert (H : viewSynced (exec selectJsonView (constructor 3000 samplePage)))
    by (repeat split).
  split; [exact H|].
  exact (proj1 (proj2 (proj2 (proj2 (view_controls_synced 3000 sampleStringify)) _
                         [CallQuery "g.V()"; ShowResults None 1 [sampleVertex "a"] [];
                          SetTitle "graph"] H))).
Defined.

(** Three queries, with a reply and a view change in between, are sent as
    queries 1, 2 and 3. *)
Lemma query_ids_consecutive_example :
  let evs := [CallQuery "g.V()"; ShowResults None 1 [sampleVertex "a"] [];
              CallQuery "g.E()"; CallSelectJsonView; CallQuery "g.V().count()"] in
  let w := run 3000 sampleStringify evs (constructor 3000 samplePage) in
  Forall (λ ev, adoptsQueryId ev = false) evs ∧
  _currentQueryId (this w) < maxExactInteger ∧
  queryIds (emitted w) = [1; 2; 3].
Proof.
  cbn zeta.
  assert (H : Forall (λ ev, adoptsQueryId ev = false)
                [CallQuery "g.V()"; ShowResults None 1 [sampleVertex "a"] [];
                 CallQuery "g.E()"; CallSelectJsonView; CallQuery "g.V().count()"])
    by (repeat (apply Forall_cons; split; [reflexivity|]); apply Forall_nil_2).
  assert (Hlt : _currentQueryId (this (run 3000 sampleStringify
                  [CallQuery "g.V()"; ShowResults None 1 [sampleVertex "a"] [];
                   CallQuery "g.E()"; CallSelectJsonView; CallQuery "g.V().count()"]
                  (constructor 3000 samplePage))) < maxExactInteger)
    by (vm_compute; reflexivity).
  split; [exact H|]. split; [exact Hlt|].
  refine (eq_trans (proj1 (query_ids_consecutive 3000 sampleStringify samplePage _ H Hlt)) _).
  vm_compute. reflexivity.
Defined.

(** From a fresh client the first query has id 1 and a reply to id 0 is then
    dropped; a client made to adopt the id 2^53 sends 2^53 again. *)
Lemma query_supersedes_example :
  let w := constructor 3000 samplePage in
  let w1 := exec (query "g.V()") w in
  let adopted :=
    exec (onSetPageState sampleStringify None
            {| PageState.queryResults := [];
               PageState.edgeResults := [];
               PageState.isQueryRunning := true;
               PageState.runningQueryId := maxExactInteger;
               PageState.errorMessage := None;
               PageState.query := "g.V()";
               PageState.view := GraphView |}) w in
  (- maxExactInteger ≤ _currentQueryId (this w) < maxExactInteger) ∧
  _currentQueryId (this w1) = 1 ∧
  dom (exec (onShowQueryError 0 "late") w1) = dom w1 ∧
  _currentQueryId (this adopted) = maxExactInteger ∧
  _currentQueryId (this (exec (query "g.E()") adopted)) = maxExactInteger.
Proof.
  cbn zeta.
  assert (H : - maxExactInteger ≤ _currentQueryId (this (constructor 3000 samplePage))
              < maxExactInteger)
    by (split; [vm_compute; intros Hc; discriminate Hc | vm_compute; reflexivity]).
  split; [exact H|].
  destruct (proj1 (proj2 (query_supersedes sampleStringify "g.V()" None [] [] "late"
                            (constructor 3000 samplePage))) H) as (H1 & _ & H3).
  split; [exact H1|]. split; [exact H3|].
  split; [reflexivity|].
  exact (proj1 (proj2 (proj2 (query_supersedes sampleStringify "g.E()" None [] [] "late"
                                 (exec (onSetPageState sampleStringify None
                                    {| PageState.queryResults := [];
                                       PageState.edgeResults := [];
                                       PageState.isQueryRunning := true;
                                       PageState.runningQueryId := maxExactInteger;
                                       PageState.errorMessage := None;
                                       PageState.query := "g.V()";
                                       PageState.view := GraphView |})
                                    (constructor 3000 samplePage))))
                  eq_refl)).
Defined.

(** With query 3 current, late replies to queries 1, 2 and 0 change nothing. *)
Lemma stale_replies_ignored_example :
  let w := run 3000 sampleStringify
             [CallQuery "g.V()"; CallQuery "g.E()"; CallQuery "g.V().count()"]
             (constructor 3000 samplePage) in
  let evs := [ShowResults None 1 [sampleVertex "a"] []; ShowQueryError 2 "late";
              ShowResults None 0 [] []] in
  Forall (staleReply (_currentQueryId (this w))) evs ∧
  dom (run 3000 sampleStringify evs w) = dom w.
Proof.
  cbn zeta.
  assert (H : Forall (staleReply (_currentQueryId (this (run 3000 sampleStringify
                [CallQuery "g.V()"; CallQuery "g.E()"; CallQuery "g.V().count()"]
                (constructor 3000 samplePage)))))
                [ShowResults None 1 [sampleVertex "a"] []; ShowQueryError 2 "late";
                 ShowResults None 0 [] []])
    by (repeat (apply Forall_cons; split; [vm_compute; lia|]); apply Forall_nil_2).
  split; [exact H|].
  exact (proj1 (stale_replies_ignored 3000 sampleStringify _ _ H)).
Defined.

(** A page state with query 7 running, carrying old results and the JSON
    view: the client adopts id 7 and waits in the querying state. *)
Lemma running_page_state_adopts_id_example :
  let pageState :=
    {| PageState.queryResults := [sampleVertex "a"];
       PageState.edgeResults := [];
       PageState.isQueryRunning := true;
       PageState.runningQueryId := 7;
       PageState.errorMessage := Some "old error";
       PageState.query := "g.E()";
       PageState.view := JsonView |} in
  let w1 := exec (onSetPageState sampleStringify None pageState)
              (constructor 3000 samplePage) in
  PageState.isQueryRunning pageState = true ∧
  _currentQueryId (this w1) = 7 ∧ states_class (dom w1) = "state-querying".
Proof.
  cbn zeta.
  destruct (running_page_state_adopts_id sampleStringify None
              {| PageState.queryResults := [sampleVertex "a"];
                 PageState.edgeResults := [];
                 PageState.isQueryRunning := true;
                 PageState.runningQueryId := 7;
                 PageState.errorMessage := Some "old error";
                 PageState.query := "g.E()";
                 PageState.view := JsonView |} "boom"
              (constructor 3000 samplePage) eq_refl) as (H1 & _ & H3 & _).
  split; [reflexivity|]. split; [exact H1|exact H3].
Defined.

(** An idle page state asking for the JSON view, while rendering its results
    throws. *)
Lemma idle_page_state_applies_view_example :
  let pageState :=
    {| PageState.queryResults := [sampleVertex "a"];
       PageState.edgeResults := [];
       PageState.isQueryRunning := false;
       PageState.runningQueryId := 0;
       PageState.errorMessage := None;
       PageState.query := "g.V()";
       PageState.view := JsonView |} in
  let w1 := exec (onSetPageState sampleStringify
                    (Some {| at_step := ForceCreate; err_text := "boom" |}) pageState)
              (constructor 3000 samplePage) in
  PageState.isQueryRunning pageState = false ∧
  _graphView (this w1) = false ∧
  last (emitted w1) = Some (MsgSetView JsonView).
Proof.
  cbn zeta.
  destruct (idle_page_state_applies_view sampleStringify
              (Some {| at_step := ForceCreate; err_text := "boom" |})
              {| PageState.queryResults := [sampleVertex "a"];
                 PageState.edgeResults := [];
                 PageState.isQueryRunning := false;
                 PageState.runningQueryId := 0;
                 PageState.errorMessage := None;
                 PageState.query := "g.V()";
                 PageState.view := JsonView |}
              (constructor 3000 samplePage) eq_refl) as (H1 & _ & H3 & _).
  split; [reflexivity|]. split; [exact H1|exact H3].
Defined.

(** A page state carrying the error "boom" shows it. *)
Lemma error_shown_example :
  let w2 := exec (onSetPageState sampleStringify None
                    {| PageState.queryResults := [sampleVertex "a"];
                       PageState.edgeResults := [];
                       PageState.isQueryRunning := false;
                       PageState.runningQueryId := 0;
                       PageState.errorMessage := Some "boom";
                       PageState.query := "g.V()";
                       PageState.view := GraphView |})
              (constructor 3000 samplePage) in
  "boom" ≠ "" ∧ states_class (dom w2) = "state-error" ∧ queryError_value (dom w2) = "boom".
Proof.
  cbn zeta.
  assert (H : "boom" ≠ "") by discriminate.
  destruct (proj1 (proj2 (error_shown sampleStringify None "boom"
                            (constructor 3000 samplePage)))
              [sampleVertex "a"] [] 0 "g.V()" GraphView H) as (H1 & H2 & _).
  split; [exact H|]. split; [exact H1|exact H2].
Defined.

(** Rendering throws while the layout is created; the state is graph-results
    all the same. *)
Lemma results_state_set_before_render_example :
  let fault := Some {| at_step := ForceCreate; err_text := "boom" |} in
  let w' := exec (showResults sampleStringify fault [sampleVertex "a"] [])
              (constructor 3000 samplePage) in
  filter (λ n, type n = Some "vertex") [sampleVertex "a"] ≠ [] ∧
  states_class (dom w') = "state-graph-results state-results" ∧
  renderedNodes w' = [].
Proof.
  cbn zeta.
  assert (H : filter (λ n, type n = Some "vertex") [sampleVertex "a"] ≠ [])
    by (vm_compute; discriminate).
  split; [exact H|].
  split.
  - exact (proj1 (results_state_set_before_render sampleStringify
                    (Some {| at_step := ForceCreate; err_text := "boom" |})
                    [sampleVertex "a"] [] (constructor 3000 samplePage) H)).
  - vm_compute. reflexivity.
Defined.
